(** * proposals.network: worker message envelope and build configuration

    The source file holds two documents: the type declarations of the worker
    message envelope ([PostMessage] and friends) and the build configuration
    script that derives environment variables from the canister deployment
    files ([readCanisterIds], [dfxCanisterIds], the [defineConfig] callback).

    The script is embedded as functions over a [Host] record that stands for
    what the JavaScript runtime and the imported libraries provide (file
    system, [JSON.parse], [path.join], [String.prototype.toUpperCase],
    [loadEnv]). Exceptions and console output are explicit: a computation
    returns a [Result] together with the list of [Event]s it performed. *)

From Stdlib Require Import Ascii String DecimalString.
From stdpp Require Import base option list strings gmap fin_maps.

(** ** JavaScript values *)

Module JS.

(** Values that the script can hold.  A string stands for its sequence of
    code units; the script looks at no character but [-] and the apostrophe.
    A number is carried by its canonical decimal rendering: the script never
    computes with numbers.  The property list of [JObj] is the object's own
    enumerable properties in enumeration order, each key once.  [JBuiltin p]
    is a built-in function or object reached through a prototype (for instance
    [Object.prototype.toString]); [p] names it.  [JSON.parse] returns no such
    value, and the script reads a property of one only if one of the names
    [canisters], [remote], [id] and [local] is a member of a prototype. *)
#[warnings="-register-all"]
Inductive JSValue : Type :=
| JUndefined
| JNull
| JBool (b : bool)
| JNum (rendering : string)
| JStr (s : string)
| JArr (elements : list JSValue)
| JObj (properties : list (string * JSValue))
| JBuiltin (path : string).

(** What a [throw] carries, as far as the script looks at it: the script only
    renders the exception into a warning with a template literal. *)
Inductive Exn : Type :=
| HostError (rendering : string)
| TypeError (message : string).

Definition render (e : Exn) : string :=
  match e with
  | HostError r => r
  | TypeError m => "TypeError: " +:+ m
  end.

Inductive Result (A : Type) : Type :=
| Ok (a : A)
| Throw (e : Exn).
Arguments Ok {A} a.
Arguments Throw {A} e.

(** The kinds of value that are not plain objects; each has a prototype of its
    own in front of [Object.prototype]. *)
Inductive JSKind : Type := KString | KArray | KNumber | KBoolean | KFunction.

(** [Object.getOwnPropertyNames(Object.prototype)]. *)
Definition Object_prototype : list string :=
  [ "constructor"; "__defineGetter__"; "__defineSetter__"; "hasOwnProperty";
    "__lookupGetter__"; "__lookupSetter__"; "isPrototypeOf";
    "propertyIsEnumerable"; "toString"; "valueOf"; "__proto__";
    "toLocaleString" ].

Definition nullish (v : JSValue) : bool :=
  match v with
  | JUndefined | JNull => true
  | _ => false
  end.

Definition index_key (i : nat) : string :=
  NilEmpty.string_of_uint (Nat.to_uint i).

Definition chars (s : string) : list JSValue :=
  (λ c, JStr (String c EmptyString)) <$> String.list_ascii_of_string s.

(** Own enumerable string-keyed properties, in enumeration order. *)
Definition own_properties (v : JSValue) : list (string * JSValue) :=
  match v with
  | JObj kvs => kvs
  | JArr l => imap (λ i x, (index_key i, x)) l
  | JStr s => imap (λ i x, (index_key i, x)) (chars s)
  | _ => []
  end.

Fixpoint assoc (k : string) (kvs : list (string * JSValue)) : option JSValue :=
  match kvs with
  | [] => None
  | (k', v) :: rest => if decide (k' = k) then Some v else assoc k rest
  end.

Definition kind_of (v : JSValue) : option JSKind :=
  match v with
  | JStr _ => Some KString
  | JArr _ => Some KArray
  | JNum _ => Some KNumber
  | JBool _ => Some KBoolean
  | JBuiltin _ => Some KFunction
  | _ => None
  end.

Definition length_property (v : JSValue) : option JSValue :=
  match v with
  | JStr s => Some (JNum (index_key (String.length s)))
  | JArr l => Some (JNum (index_key (length l)))
  | _ => None
  end.

Definition prototype_name (kd : JSKind) : string :=
  match kd with
  | KString => "String.prototype."
  | KArray => "Array.prototype."
  | KNumber => "Number.prototype."
  | KBoolean => "Boolean.prototype."
  | KFunction => "Function.prototype."
  end.

Section Properties.
(** Names of the members of the prototype of each kind of value; this table
    belongs to the runtime. *)
Variable members : JSKind → list string.

(** The value found for [k] on the prototype chain of [v]. *)
Definition inherited (v : JSValue) (k : string) : JSValue :=
  let from_Object :=
    if bool_decide (k ∈ Object_prototype)
    then JBuiltin ("Object.prototype." +:+ k)
    else JUndefined in
  match kind_of v with
  | Some kd =>
      if bool_decide (k ∈ members kd)
      then JBuiltin (prototype_name kd +:+ k)
      else from_Object
  | None => from_Object
  end.

(** [v[k]] for a [v] that is neither [null] nor [undefined]. *)
Definition lookup_property (v : JSValue) (k : string) : JSValue :=
  match assoc k (own_properties v) with
  | Some x => x
  | None =>
      match length_property v with
      | Some n => if decide (k = "length") then n else inherited v k
      | None => inherited v k
      end
  end.

(** [v[k]], which throws on [null] and [undefined]; the messages are V8's. *)
Definition get (v : JSValue) (k : string) : Result JSValue :=
  match v with
  | JUndefined =>
      Throw (TypeError ("Cannot read properties of undefined (reading '" +:+ k +:+ "')"))
  | JNull =>
      Throw (TypeError ("Cannot read properties of null (reading '" +:+ k +:+ "')"))
  | _ => Ok (lookup_property v k)
  end.

(** [const { k } = v] where [v] is written [source]; the message is V8's. *)
Definition destructure (source : string) (v : JSValue) (k : string)
  : Result JSValue :=
  match v with
  | JUndefined =>
      Throw (TypeError ("Cannot destructure property '" +:+ k +:+ "' of '"
                        +:+ source +:+ "' as it is undefined."))
  | JNull =>
      Throw (TypeError ("Cannot destructure property '" +:+ k +:+ "' of '"
                        +:+ source +:+ "' as it is null."))
  | _ => Ok (lookup_property v k)
  end.
End Properties.

(** [Object.entries(v)]. *)
Definition Object_entries (v : JSValue) : Result (list (string * JSValue)) :=
  if nullish v then Throw (TypeError "Cannot convert undefined or null to object")
  else Ok (own_properties v).

(** [s.replaceAll(c, r)] for a pattern [c] of one character. *)
Fixpoint replaceAll (c : ascii) (r : string) (s : string) : string :=
  match s with
  | EmptyString => EmptyString
  | String x rest =>
      if decide (x = c) then r +:+ replaceAll c r rest
      else String x (replaceAll c r rest)
  end.

(** A record built by object spread: [{...acc, [k]: v}] is [<[k:=v]> acc] and
    [{...a, ...b}] is [b ∪ a] (the later spread wins).  A key bound to
    [undefined] is a key of the record. *)
Abbreviation JSRecord := (gmap string JSValue).

Definition spread (a b : JSRecord) : JSRecord := b ∪ a.

End JS.

(** ** Computations of the script: exceptions and observable events *)

Module Eff.
Import JS.

(** What a run of the script does to the outside: reading a file and writing
    to the console. *)
Inductive Event : Type :=
| EvRead (path : string)
| EvWarn (message : string)
| EvLog (value : JSRecord).

(** A computation ends in a value or in a thrown exception, after a sequence
    of events. *)
Definition M (A : Type) : Type := (Result A * list Event)%type.

Definition ret {A} (a : A) : M A := (Ok a, []).

Definition throw {A} (e : Exn) : M A := (Throw e, []).

Definition bind {A B} (m : M A) (k : A → M B) : M B :=
  match m with
  | (Ok a, t) => let '(r, t') := k a in (r, t ++ t')
  | (Throw e, t) => (Throw e, t)
  end.

(** [try { m } catch (e) { handler e }]. *)
Definition try_catch {A} (m : M A) (handler : Exn → M A) : M A :=
  match m with
  | (Ok a, t) => (Ok a, t)
  | (Throw e, t) => let '(r, t') := handler e in (r, t ++ t')
  end.

Definition lift {A} (r : Result A) : M A := (r, []).

Definition emit (ev : Event) : M unit := (Ok tt, [ev]).

Global Instance M_ret : MRet M := @ret.
Global Instance M_bind : MBind M := λ A B k m, bind m k.

(** [arr.reduce(f, init)] for a callback that may throw. *)
Fixpoint reduce {A B} (f : A → B → M A) (l : list B) (init : A) : M A :=
  match l with
  | [] => ret init
  | x :: rest => bind (f init x) (reduce f rest)
  end.

Definition result {A} (m : M A) : Result A := fst m.
Definition events {A} (m : M A) : list Event := snd m.

Definition is_warning (ev : Event) : bool :=
  match ev with EvWarn _ => true | _ => false end.

Definition is_read (ev : Event) : bool :=
  match ev with EvRead _ => true | _ => false end.

Definition warnings (t : list Event) : nat := length (filter is_warning t).
Definition reads (t : list Event) : nat := length (filter is_read t).

End Eff.

(** ** The build configuration script *)

Module ViteConfig.
Import JS Eff.

(** What the runtime and the imported libraries provide. *)
Record Host : Type := {
  (** [process.env.DFX_NETWORK] when the module is loaded *)
  DFX_NETWORK : option string;
  (** [process.cwd()] *)
  cwd : string;
  (** [path.join] *)
  join : list string → string;
  (** [readFileSync(path, 'utf-8')] *)
  readFileSync : string → Result string;
  (** [JSON.parse] *)
  JSON_parse : string → Result JSValue;
  (** [JSON.stringify] *)
  JSON_stringify : JSValue → JSValue;
  (** [String.prototype.toUpperCase] *)
  toUpperCase : string → string;
  (** property names of the built-in prototypes *)
  members : JSKind → list string;
  (** Vite's [loadEnv(mode, envDir)] *)
  loadEnv : string → string → JSRecord;
}.

(** The value of [define] in the returned configuration. *)
Record Define : Type := {
  define_process_env : JSRecord;
  define_VITE_APP_VERSION : JSValue;
  define_VITE_DFX_NETWORK : JSValue;
}.

(** The returned configuration: the static [config] object with [define]
    added. *)
Record UserConfig (Static : Type) : Type := {
  static : Static;
  define : Define;
}.
Arguments static {Static} _.
Arguments define {Static} _.

Section Script.
Variable h : Host.

(** [const network = process.env.DFX_NETWORK ?? 'local'] *)
Definition network : string := default "local" (DFX_NETWORK h).

Definition remote_network : bool := bool_decide (network ∈ ["ic"; "staging"]).

Definition read_file (path : string) : M string :=
  _ ← emit (EvRead path); lift (readFileSync h path).

(** [JSON.parse(readFileSync(path, 'utf-8'))] *)
Definition read_json (path : string) : M JSValue :=
  text ← read_file path; lift (JSON_parse h text).

Definition console_warn (message : string) : M unit := emit (EvWarn message).

Definition canisterIdsJsonFile : string :=
  if remote_network
  then join h [cwd h; "canister_ids.json"]
  else join h [cwd h; ".dfx"; "local"; "canister_ids.json"].

Definition env_key (prefix : option string) (name : string) : string :=
  default "" prefix +:+ name +:+ "_CANISTER_ID".

(** The callback of [reduce] in [readCanisterIds]. *)
Definition readCanisterIds_step (prefix : option string)
    (acc : JSRecord) (current : string * JSValue) : M JSRecord :=
  let '(canisterName, canisterDetails) := current in
  let key := env_key prefix (toUpperCase h canisterName) in
  value ← lift (get (members h) canisterDetails network);
  mret (<[key := value]> acc).

(** The [try] block of [readCanisterIds]. *)
Definition readCanisterIds_try (prefix : option string) : M JSRecord :=
  config ← read_json canisterIdsJsonFile;
  entries ← lift (Object_entries config);
  reduce (readCanisterIds_step prefix) entries ∅.

(** [`Could not get canister ID from ${canisterIdsJsonFile}: ${e}`] *)
Definition readCanisterIds_warning (e : Exn) : string :=
  "Could not get canister ID from " +:+ canisterIdsJsonFile +:+ ": " +:+ render e.

Definition readCanisterIds (prefix : option string) : M JSRecord :=
  try_catch (readCanisterIds_try prefix)
    (λ e, _ ← console_warn (readCanisterIds_warning e); mret ∅).

Definition dfxJsonFile : string := join h [cwd h; "dfx.json"].

Definition dfx_name (canisterName : string) : string :=
  toUpperCase h (replaceAll "'" "" (replaceAll "-" "_" canisterName)).

(** The callback of [reduce] in [dfxCanisterIds]. *)
Definition dfxCanisterIds_step (prefix : option string)
    (acc : JSRecord) (current : string * JSValue) : M JSRecord :=
  let '(canisterName, canisterDetails) := current in
  remote ← lift (get (members h) canisterDetails "remote");
  match remote with
  | JUndefined => mret acc
  | _ =>
      let key := env_key prefix (dfx_name canisterName) in
      id ← lift (get (members h) remote "id");
      value ← lift (get (members h) id "local");
      mret (<[key := value]> acc)
  end.

(** The [try] block of [dfxCanisterIds]. *)
Definition dfxCanisterIds_try (prefix : option string) : M JSRecord :=
  parsed ← read_json dfxJsonFile;
  canisters ← lift (destructure (members h) "JSON.parse(...)" parsed "canisters");
  entries ← lift (Object_entries canisters);
  reduce (dfxCanisterIds_step prefix) entries ∅.

(** [`Could not get canisters ID from ${dfxJsonFile}: ${e}`] *)
Definition dfxCanisterIds_warning (e : Exn) : string :=
  "Could not get canisters ID from " +:+ dfxJsonFile +:+ ": " +:+ render e.

Definition dfxCanisterIds (prefix : option string) : M JSRecord :=
  if remote_network then mret ∅
  else
    try_catch (dfxCanisterIds_try prefix)
      (λ e, _ ← console_warn (dfxCanisterIds_warning e); mret ∅).

(** The mode handed to [loadEnv]. *)
Definition mode : string :=
  if decide (network = "ic") then "production"
  else if decide (network = "staging") then "staging"
  else "development".

(** [{...process.env, ...loadEnv(mode, process.cwd()),
      ...readCanisterIds({ prefix: 'VITE_' }), ...dfxCanisterIds({ prefix: 'VITE_' })}] *)
Definition expanded_env (process_env : JSRecord) : M JSRecord :=
  let loaded := loadEnv h mode (cwd h) in
  ids ← readCanisterIds (Some "VITE_");
  remotes ← dfxCanisterIds (Some "VITE_");
  mret (spread (spread (spread process_env loaded) ids) remotes).

(** The callback given to [defineConfig].  It is run with the current
    [process.env] and returns the new [process.env] with the configuration.
    [version] and [config] are the module's constants. *)
Definition defineConfig {Static : Type} (version : JSValue) (config : Static)
    (process_env : JSRecord) : M (JSRecord * UserConfig Static) :=
  process_env' ← expanded_env process_env;
  logged ← expanded_env process_env';
  _ ← emit (EvLog logged);
  ids ← readCanisterIds None;
  remotes ← dfxCanisterIds None;
  mret (process_env',
        {| static := config;
           define :=
             {| define_process_env :=
                  <["DFX_NETWORK" := JStr network]> (spread ids remotes);
                define_VITE_APP_VERSION := JSON_stringify h version;
                define_VITE_DFX_NETWORK := JSON_stringify h (JStr network) |} |}).
End Script.

(** *** Concrete hosts for the examples *)

Definition dq : string := String (Ascii.ascii_of_nat 34) EmptyString.

(** A JSON string literal without escapes. *)
Definition quoted (s : string) : string := dq +:+ s +:+ dq.

Definition ascii_upper (c : ascii) : ascii :=
  let n := Ascii.nat_of_ascii c in
  if bool_decide (97 ≤ n ≤ 122) then Ascii.ascii_of_nat (n - 32) else c.

(** [toUpperCase] on strings of ASCII characters. *)
Fixpoint ascii_toUpperCase (s : string) : string :=
  match s with
  | EmptyString => EmptyString
  | String c rest => String (ascii_upper c) (ascii_toUpperCase rest)
  end.

(** [path.join] on clean POSIX segments. *)
Fixpoint posix_join (parts : list string) : string :=
  match parts with
  | [] => "."
  | [p] => p
  | p :: rest => p +:+ "/" +:+ posix_join rest
  end.

Fixpoint table {A} (k : string) (entries : list (string * A)) : option A :=
  match entries with
  | [] => None
  | (k', a) :: rest => if decide (k' = k) then Some a else table k rest
  end.

(** [JSON.stringify] on atoms; the examples stringify nothing else. *)
Definition stringify_atom (v : JSValue) : JSValue :=
  match v with
  | JStr s => JStr (quoted s)
  | JNum r => JStr r
  | JBool true => JStr "true"
  | JBool false => JStr "false"
  | JNull => JStr "null"
  | _ => JUndefined
  end.

(** A host whose working directory is [/app], with the given files and the
    given readings of their texts by [JSON.parse]; every other path is a
    missing file and every other text a syntax error. *)
Definition host_of (net : option string) (files : list (string * string))
    (documents : list (string * JSValue)) : Host :=
  {| DFX_NETWORK := net;
     cwd := "/app";
     join := posix_join;
     readFileSync path :=
       match table path files with
       | Some text => Ok text
       | None =>
           Throw (HostError ("Error: ENOENT: no such file or directory, open '"
                             +:+ path +:+ "'"))
       end;
     JSON_parse text :=
       match table text documents with
       | Some v => Ok v
       | None => Throw (HostError "SyntaxError: Unexpected end of JSON input")
       end;
     JSON_stringify := stringify_atom;
     toUpperCase := ascii_toUpperCase;
     members kd :=
       match kd with
       | KString => ["charAt"; "toUpperCase"; "replaceAll"]
       | KArray => ["reduce"; "includes"; "find"]
       | KNumber => ["toFixed"]
       | KBoolean => []
       | KFunction => ["call"; "apply"; "bind"]
       end;
     loadEnv _ _ := ∅ |}.

(** No deployment file at all. *)
Definition bare_host (net : option string) : Host := host_of net [] [].

End ViteConfig.

(** ** The worker message envelope *)

Module PostMessageTypes.
Import JS.

(** TypeScript's [object]: every value that is not a primitive. *)
Definition is_object (v : JSValue) : bool :=
  match v with
  | JObj _ | JArr _ | JBuiltin _ => true
  | _ => false
  end.

Definition object : Type := { v : JSValue | is_object v = true }.

Definition PostMessageDataResponse : Type := object.

(** ['start' | 'stop' | 'busy' | 'idle'] *)
Inductive PostMessageRequest : Type := start | stop | busy | idle.

(** The string that a request tag is at run time. *)
Definition tag (r : PostMessageRequest) : string :=
  match r with
  | start => "start"
  | stop => "stop"
  | busy => "busy"
  | idle => "idle"
  end.

Definition PostMessageResponse : Type := object.

(** *** Object types *)

(** A property declaration of an object type: [name: T], or [name?: T] when it
    is optional. *)
Record Property : Type := {
  property_name : string;
  optional : bool;
  property_type : Type;
}.

(** An object type, by its property declarations. *)
Definition ObjectType : Type := list Property.

(** [Pick<T, K>]: the declarations of [T] whose name is in [K], each with the
    modifier and the type it has in [T]. *)
Definition Pick (T : ObjectType) (K : list string) : ObjectType :=
  filter (λ d, property_name d ∈ K) T.

(** [A & B] for object types that have no property name in common: the
    declarations of both. *)
Definition intersection (A B : ObjectType) : ObjectType := A ++ B.

(** What a value holds for a declaration: a value of its type, or nothing
    when the declaration is optional and the property is left out. *)
Definition Held (d : Property) : Type :=
  if optional d then option (property_type d) else property_type d.

(** The values of an object type, declaration by declaration. *)
Fixpoint Value (T : ObjectType) : Type :=
  match T with
  | [] => unit
  | d :: rest => (Held d * Value rest)%type
  end.

Definition present (d : Property) : Held d → bool :=
  match optional d as o
    return (if o then option (property_type d) else property_type d) → bool
  with
  | true => λ x, match x with Some _ => true | None => false end
  | false => λ _, true
  end.

(** Whether the value [v] has the property [k]. *)
Fixpoint carries (T : ObjectType) (k : string) : Value T → bool :=
  match T with
  | [] => λ _, false
  | d :: rest =>
      λ v, (bool_decide (property_name d = k) && present d v.1)
           || carries rest k v.2
  end.

(** [T] declares [k] as a required property. *)
Definition required (T : ObjectType) (k : string) : Prop :=
  ∃ d, d ∈ T ∧ property_name d = k ∧ optional d = false.

(** The two properties of [Environment] that the payload picks, as
    [@junobuild/core] declares them:
    [satelliteId: string; localIdentityCanisterId?: string]. *)
Definition juno_Environment : ObjectType :=
  [ {| property_name := "satelliteId"; optional := false; property_type := string |};
    {| property_name := "localIdentityCanisterId"; optional := true;
       property_type := string |} ].

Section Envelope.
(** The imported types: [UserOption] of [$lib/types/user] and [Environment]
    of [@junobuild/core]. *)
Variable UserOption : Type.
Variable Environment : ObjectType.

(** [{ user: UserOption; governanceId: string }] *)
Definition declared : ObjectType :=
  [ {| property_name := "user"; optional := false; property_type := UserOption |};
    {| property_name := "governanceId"; optional := false; property_type := string |} ].

Definition picked_keys : list string := ["satelliteId"; "localIdentityCanisterId"].

(** [{ user; governanceId } & Pick<Environment, 'satelliteId' | 'localIdentityCanisterId'>] *)
Definition PostMessageDataRequest_type : ObjectType :=
  intersection declared (Pick Environment picked_keys).

Definition PostMessageDataRequest : Type := Value PostMessageDataRequest_type.

Definition user (p : PostMessageDataRequest) : UserOption := p.1.
Definition governanceId (p : PostMessageDataRequest) : string := p.2.1.

(** Whether the payload [p] has the property [k]. *)
Definition payload_carries (p : PostMessageDataRequest) (k : string) : bool :=
  carries PostMessageDataRequest_type k p.

(** [T extends PostMessageDataRequest | PostMessageDataResponse] *)
Class PostMessageData (T : Type) : Type :=
  as_data : T → PostMessageDataRequest + PostMessageDataResponse.

#[export] Instance request_is_data : PostMessageData PostMessageDataRequest := inl.
#[export] Instance response_is_data : PostMessageData PostMessageDataResponse := inr.

(** [interface PostMessage<T>]: [data?: T] is a property that may be left
    out. *)
Record PostMessage (T : Type) `{PostMessageData T} : Type := {
  msg : PostMessageRequest + PostMessageResponse;
  data : option T;
}.
End Envelope.

Arguments user {_ _} _.
Arguments governanceId {_ _} _.
Arguments payload_carries {_ _} _ _.
Arguments msg {_ _ _ _} _.
Arguments data {_ _ _ _} _.
Arguments Build_PostMessage {_ _ _ _} _ _.

(** The empty object [{}]. *)
Definition empty_object : object := exist _ (JObj []) eq_refl.

(** [{ msg: 'idle', data: {} }] as a [PostMessage<PostMessageDataResponse>];
    the imported types play no part in it. *)
Definition idle_with_payload : PostMessage unit juno_Environment PostMessageDataResponse :=
  {| msg := inl idle; data := Some empty_object |}.

(** A request payload without [localIdentityCanisterId]:
    [{ user, governanceId: 'gov', satelliteId: 'sat' }]. *)
Definition payload_without_local_identity : PostMessageDataRequest unit juno_Environment :=
  (tt, ("gov", ("sat", (None, tt)))).

(** A reading of "the message kind requires a payload": a test on the [msg]
    of an envelope. *)
Definition Requirement : Type := PostMessageRequest + PostMessageResponse → bool.

End PostMessageTypes.

(** ** Vocabulary of the statements about the script *)

Module ViteConfigSpec.
Import JS Eff ViteConfig.

(** The record after the bindings of [l] are written into [acc] one after the
    other, from the first to the last. *)
Definition insert_all (acc : JSRecord) (l : list (string * JSValue)) : JSRecord :=
  foldl (λ acc kv, <[kv.1 := kv.2]> acc) acc l.

(** A key that ends in [_CANISTER_ID]. *)
Definition canister_id_key (k : string) : Prop := ∃ s, k = s +:+ "_CANISTER_ID".

Definition canister_id_keys (r : JSRecord) : Prop :=
  ∀ k, is_Some (r !! k) → canister_id_key k.

Section Vocabulary.
Variable h : Host.

(** [details[network]] *)
Definition network_entry (details : JSValue) : JSValue :=
  lookup_property (members h) details (network h).

(** The variable name that [readCanisterIds] makes of a canister name. *)
Definition ids_key (prefix : option string) (name : string) : string :=
  env_key prefix (toUpperCase h name).

(** The variable name that [dfxCanisterIds] makes of a canister name. *)
Definition dfx_key (prefix : option string) (name : string) : string :=
  env_key prefix (dfx_name h name).

(** [details.remote], [details.remote.id] and [details.remote.id.local] *)
Definition remote_of (details : JSValue) : JSValue :=
  lookup_property (members h) details "remote".
Definition remote_id_of (details : JSValue) : JSValue :=
  lookup_property (members h) (remote_of details) "id".
Definition remote_local_of (details : JSValue) : JSValue :=
  lookup_property (members h) (remote_id_of details) "local".

Definition has_remote (details : JSValue) : bool :=
  match remote_of details with JUndefined => false | _ => true end.

(** A canister of [dfx.json] as its declared type has it: an object whose
    [remote], when there is one, has an [id] object. *)
Definition declared_shape (details : JSValue) : bool :=
  negb (nullish details) &&
  (negb (has_remote details) ||
   (negb (nullish (remote_of details)) && negb (nullish (remote_id_of details)))).

(** What [readCanisterIds] writes for the entries of [canister_ids.json], in
    their order. *)
Definition ids_bindings (prefix : option string)
    (entries : list (string * JSValue)) : list (string * JSValue) :=
  (λ e, (ids_key prefix e.1, network_entry e.2)) <$> entries.

(** What [dfxCanisterIds] writes for the canisters of [dfx.json], in their
    order. *)
Definition dfx_bindings (prefix : option string)
    (entries : list (string * JSValue)) : list (string * JSValue) :=
  omap (λ e, if has_remote e.2
             then Some (dfx_key prefix e.1, remote_local_of e.2)
             else None) entries.
End Vocabulary.

End ViteConfigSpec.

(** ** Deployment files of the examples *)

Module ViteConfigExamples.
Import JS Eff ViteConfig.

Definition local_ids_file : string := "/app/.dfx/local/canister_ids.json".
Definition dfx_file : string := "/app/dfx.json".

(** The text of a JSON object, from the texts of its members. *)
Fixpoint json_members (members : list (string * string)) : string :=
  match members with
  | [] => ""
  | [(k, v)] => quoted k +:+ ":" +:+ v
  | (k, v) :: rest => quoted k +:+ ":" +:+ v +:+ "," +:+ json_members rest
  end.

Definition json_object (members : list (string * string)) : string :=
  "{" +:+ json_members members +:+ "}".

(** A project with two canisters deployed on the local network, and a
    [dfx.json] that declares a remote canister and a canister of the project. *)
Definition sample_ids_text : string :=
  json_object [("backend", json_object [("local", quoted "abc")]);
               ("frontend", json_object [("local", quoted "def")])].

Definition sample_ids : list (string * JSValue) :=
  [("backend", JObj [("local", JStr "abc")]);
   ("frontend", JObj [("local", JStr "def")])].

Definition sample_dfx_text : string :=
  json_object
    [("canisters",
      json_object
        [("internet-identity",
          json_object
            [("remote",
              json_object
                [("id", json_object [("ic", quoted "rdmx6");
                                     ("local", quoted "bkyz2")])])]);
         ("backend", json_object [("type", quoted "rust")])])].

Definition sample_canisters : list (string * JSValue) :=
  [("internet-identity",
    JObj [("remote", JObj [("id", JObj [("ic", JStr "rdmx6");
                                        ("local", JStr "bkyz2")])])]);
   ("backend", JObj [("type", JStr "rust")])].

Definition sample_dfx : list (string * JSValue) :=
  [("canisters", JObj sample_canisters)].

Definition sample_host (net : option string) : Host :=
  host_of net
    [(local_ids_file, sample_ids_text); (dfx_file, sample_dfx_text)]
    [(sample_ids_text, JObj sample_ids); (sample_dfx_text, JObj sample_dfx)].

(** [canister_ids.json] with two names that differ in case only. *)
Definition colliding_ids_text : string :=
  json_object [("a", json_object [("local", quoted "x")]);
               ("A", json_object [("local", quoted "y")])].

Definition colliding_ids : list (string * JSValue) :=
  [("a", JObj [("local", JStr "x")]); ("A", JObj [("local", JStr "y")])].

Definition colliding_ids_host : Host :=
  host_of None [(local_ids_file, colliding_ids_text)]
    [(colliding_ids_text, JObj colliding_ids)].

(** The same two names, the first one deployed on [ic] only. *)
Definition half_deployed_ids_text : string :=
  json_object [("a", json_object [("ic", quoted "x")]);
               ("A", json_object [("local", quoted "y")])].

Definition half_deployed_ids : list (string * JSValue) :=
  [("a", JObj [("ic", JStr "x")]); ("A", JObj [("local", JStr "y")])].

Definition half_deployed_host : Host :=
  host_of None [(local_ids_file, half_deployed_ids_text)]
    [(half_deployed_ids_text, JObj half_deployed_ids)].

(** The sample project built with [DFX_NETWORK=constructor]. *)
Definition constructor_host : Host := sample_host (Some "constructor").

(** The sample project built with [DFX_NETWORK=testnet]. *)
Definition testnet_host : Host := sample_host (Some "testnet").

(** [dfx.json] with two remote canisters whose names differ in [-] and [_]
    only. *)
Definition remote_of_text (ic local : string) : string :=
  json_object
    [("remote",
      json_object [("id", json_object [("ic", quoted ic); ("local", quoted local)])])].

Definition remote_value (ic local : string) : JSValue :=
  JObj [("remote", JObj [("id", JObj [("ic", JStr ic); ("local", JStr local)])])].

Definition colliding_dfx_text : string :=
  json_object
    [("canisters",
      json_object [("a-b", remote_of_text "p" "1"); ("a_b", remote_of_text "q" "2")])].

Definition colliding_canisters : list (string * JSValue) :=
  [("a-b", remote_value "p" "1"); ("a_b", remote_value "q" "2")].

Definition colliding_dfx_host : Host :=
  host_of None [(dfx_file, colliding_dfx_text)]
    [(colliding_dfx_text, JObj [("canisters", JObj colliding_canisters)])].

(** [canister_ids.json] whose second canister is [null]. *)
Definition null_details_text : string :=
  json_object [("backend", json_object [("local", quoted "abc")]);
               ("frontend", "null")].

Definition null_details_host : Host :=
  host_of None [(local_ids_file, null_details_text)]
    [(null_details_text,
      JObj [("backend", JObj [("local", JStr "abc")]); ("frontend", JNull)])].

End ViteConfigExamples.

(** ** The rest of the build configuration script *)

Module ViteConfigRest.
Import JS Eff ViteConfig.

(** [s.startsWith(p)] *)
Fixpoint startsWith (s p : string) : bool :=
  match p, s with
  | EmptyString, _ => true
  | String a p', String b s' => if decide (a = b) then startsWith s' p' else false
  | String _ _, EmptyString => false
  end.

(** [s.includes(sub)] *)
Fixpoint includes (s sub : string) : bool :=
  startsWith s sub ||
  match s with
  | EmptyString => false
  | String _ rest => includes rest sub
  end.

(** [x === undefined] for the result of [Array.prototype.find] on an array of
    strings. *)
Definition is_undefined (found : option string) : bool :=
  match found with
  | None => true
  | Some _ => false
  end.

Definition lazy : list string := ["@dfinity/nns"; "@dfinity/nns-proto"].

Section Chunks.
(** [dirname] of [path]. *)
Variable dirname : string → string.

(** [build.rollupOptions.output.manualChunks] *)
Definition manualChunks (id : string) : string :=
  let folder := dirname id in
  if is_undefined (find (λ lib, includes folder lib) (["@sveltejs"; "svelte"] ++ lazy))
     && includes folder "node_modules"
  then "vendor"
  else if negb (is_undefined (find (λ lib, includes folder lib) lazy))
          && includes folder "node_modules"
  then "lazy"
  else "index".
End Chunks.

Section Loading.
Variable h : Host.

(** The first statements of the module, where [file] is the path of
    [package.json] that [fileURLToPath] gives:
    [const json = readFileSync(file, 'utf8'); const { version } = JSON.parse(json)].
    They stand outside any [try]. *)
Definition load_version (file : string) : M JSValue :=
  json ← read_file h file;
  parsed ← lift (JSON_parse h json);
  lift (destructure (members h) "JSON.parse(...)" parsed "version").

(** Loading the module and then running the callback it exports. *)
Definition load_config {Static : Type} (file : string) (config : Static)
    (process_env : JSRecord) : M (JSRecord * UserConfig Static) :=
  version ← load_version file;
  defineConfig h version config process_env.

(** The same host with another value of [process.env.DFX_NETWORK]. *)
Definition with_network (net : option string) : Host :=
  {| DFX_NETWORK := net;
     cwd := cwd h;
     join := join h;
     readFileSync := readFileSync h;
     JSON_parse := JSON_parse h;
     JSON_stringify := JSON_stringify h;
     toUpperCase := toUpperCase h;
     members := members h;
     loadEnv := loadEnv h |}.

(** [{...process_env, ...loadEnv(mode, cwd), ...ids, ...remotes}] *)
Definition overlay (process_env ids remotes : JSRecord) : JSRecord :=
  spread (spread (spread process_env (loadEnv h (mode h) (cwd h))) ids) remotes.
End Loading.

(** The outcome of [m] with [f] applied to its value. *)
Definition map_result {A B} (f : A → B) (m : M A) : M B :=
  match m with
  | (Ok a, t) => (Ok (f a), t)
  | (Throw e, t) => (Throw e, t)
  end.

(** The record [r] with [p] put in front of each key. *)
Definition prefixed (p : string) (r : JSRecord) : JSRecord :=
  kmap (String.append p) r.

(** [name] with each [-] turned into [_] and each apostrophe removed. *)
Definition sanitized (name : string) : string :=
  replaceAll "'" "" (replaceAll "-" "_" name).

Definition is_log (ev : Event) : bool :=
  match ev with EvLog _ => true | _ => false end.

(** *** More deployment files *)

Definition package_json_file : string := "/app/package.json".

Definition package_json_text : string :=
  ViteConfigExamples.json_object [("name", quoted "app"); ("version", quoted "0.0.1")].

(** The sample project with its [package.json]. *)
Definition packaged_host : Host :=
  host_of None
    [(package_json_file, package_json_text);
     (ViteConfigExamples.local_ids_file, ViteConfigExamples.sample_ids_text);
     (ViteConfigExamples.dfx_file, ViteConfigExamples.sample_dfx_text)]
    [(package_json_text, JObj [("name", JStr "app"); ("version", JStr "0.0.1")]);
     (ViteConfigExamples.sample_ids_text, JObj ViteConfigExamples.sample_ids);
     (ViteConfigExamples.sample_dfx_text, JObj ViteConfigExamples.sample_dfx)].

(** [canister_ids.json] that holds the number [42], and [dfx.json] that holds
    [{}]. *)
Definition hollow_host : Host :=
  host_of None
    [(ViteConfigExamples.local_ids_file, "42"); (ViteConfigExamples.dfx_file, "{}")]
    [("42", JNum "42"); ("{}", JObj [])].

(** [dfx.json] whose second canister has a [remote] without [id]. *)
Definition broken_remote_text : string :=
  ViteConfigExamples.json_object
    [("canisters",
      ViteConfigExamples.json_object
        [("internet-identity", ViteConfigExamples.remote_of_text "rdmx6" "bkyz2");
         ("ledger",
          ViteConfigExamples.json_object
            [("remote", ViteConfigExamples.json_object [])])])].

Definition broken_remote_canisters : list (string * JSValue) :=
  [("internet-identity", ViteConfigExamples.remote_value "rdmx6" "bkyz2");
   ("ledger", JObj [("remote", JObj [])])].

Definition broken_remote_host : Host :=
  host_of None [(ViteConfigExamples.dfx_file, broken_remote_text)]
    [(broken_remote_text, JObj [("canisters", JObj broken_remote_canisters)])].

End ViteConfigRest.

(** * Properties *)

(** ** Computations *)

Module EffFacts.
Import JS Eff.

Lemma mbind_bind {A B} (m : M A) (k : A → M B) : mbind k m = bind m k.
Proof. reflexivity. Qed.

Lemma mret_ret {A} (a : A) : mret a = ret a.
Proof. reflexivity. Qed.

Lemma result_bind {A B} (m : M A) (k : A → M B) :
  result (bind m k) =
  match result m with Ok a => result (k a) | Throw e => Throw e end.
Proof. destruct m as [[a|e] t]; simpl; [destruct (k a)|]; reflexivity. Qed.

Lemma events_bind {A B} (m : M A) (k : A → M B) :
  events (bind m k) =
  events m ++ match result m with Ok a => events (k a) | Throw _ => [] end.
Proof.
  destruct m as [[a|e] t]; simpl; [destruct (k a); reflexivity|].
  by rewrite app_nil_r.
Qed.

Lemma bind_lift_ok {A B} (a : A) (k : A → M B) : bind (lift (Ok a)) k = k a.
Proof. unfold lift, bind. by destruct (k a). Qed.

Lemma bind_lift_throw {A B} (e : Exn) (k : A → M B) :
  bind (lift (Throw e)) k = throw e.
Proof. reflexivity. Qed.

Lemma bind_ret {A B} (a : A) (k : A → M B) : bind (ret a) k = k a.
Proof. apply bind_lift_ok. Qed.

Lemma M_eta {A} (m : M A) : m = (result m, events m).
Proof. by destruct m. Qed.

Lemma reduce_silent {A B} (f : A → B → M A) (l : list B) (init : A) :
  (∀ acc x, events (f acc x) = []) → events (reduce f l init) = [].
Proof.
  intros Hf. revert init. induction l as [|x l IH]; intros init; [done|].
  simpl. rewrite events_bind, Hf. destruct (result (f init x)); [apply IH|done].
Qed.

Lemma reduce_invariant {A B} (P : A → Prop) (f : A → B → M A) (l : list B) :
  (∀ acc x r, P acc → result (f acc x) = Ok r → P r) →
  ∀ init r, P init → result (reduce f l init) = Ok r → P r.
Proof.
  intros Hstep. induction l as [|x l IH]; intros init r Hinit Hrun.
  - simpl in Hrun. by injection Hrun as <-.
  - simpl in Hrun. rewrite result_bind in Hrun.
    destruct (result (f init x)) as [acc|e] eqn:Hfx; [|done].
    eapply IH; [|exact Hrun]. eapply Hstep; eauto.
Qed.

(** A [try] block either completes, and the [catch] clause is not run, or
    throws, and the statement is the run of the [catch] clause after the
    events of the block. *)
Lemma try_catch_cases {A} (m : M A) (handler : Exn → M A) :
  (∃ a, result m = Ok a ∧ try_catch m handler = m) ∨
  (∃ e, result m = Throw e ∧
        try_catch m handler
        = (result (handler e), events m ++ events (handler e))).
Proof.
  destruct m as [[a|e] t]; [left; eauto|right].
  exists e. split; [done|]. simpl. by destruct (handler e).
Qed.

Lemma warnings_app (t1 t2 : list Event) :
  warnings (t1 ++ t2) = warnings t1 + warnings t2.
Proof. unfold warnings. by rewrite filter_app, length_app. Qed.

Lemma reads_app (t1 t2 : list Event) : reads (t1 ++ t2) = reads t1 + reads t2.
Proof. unfold reads. by rewrite filter_app, length_app. Qed.

End EffFacts.

(** ** The build configuration script *)

Module ViteConfigFacts.
Import JS Eff ViteConfig ViteConfigSpec EffFacts.

Lemma insert_all_cons acc k v l :
  insert_all acc ((k, v) :: l) = insert_all (<[k:=v]> acc) l.
Proof. reflexivity. Qed.

Lemma insert_all_app acc l1 l2 :
  insert_all acc (l1 ++ l2) = insert_all (insert_all acc l1) l2.
Proof. unfold insert_all. apply foldl_app. Qed.

Lemma insert_all_lookup_other acc l k :
  Forall (λ kv, kv.1 ≠ k) l → insert_all acc l !! k = acc !! k.
Proof.
  revert acc. induction l as [|[k' v] l IH]; intros acc Hl; [done|].
  apply Forall_cons in Hl as [Hne Hl]. simpl in Hne.
  rewrite insert_all_cons, IH by done. by rewrite lookup_insert_ne.
Qed.

Lemma insert_all_lookup_last acc before k v after :
  Forall (λ kv, kv.1 ≠ k) after →
  insert_all acc (before ++ (k, v) :: after) !! k = Some v.
Proof.
  intros Hafter. rewrite insert_all_app, insert_all_cons.
  rewrite insert_all_lookup_other by done. apply lookup_insert_eq.
Qed.

Lemma insert_all_is_Some acc l k :
  is_Some (insert_all acc l !! k) ↔ is_Some (acc !! k) ∨ k ∈ l.*1.
Proof.
  revert acc. induction l as [|[k' v] l IH]; intros acc.
  - simpl. split; [auto|]. intros [?|Hin]; [done|]. by apply elem_of_nil in Hin.
  - rewrite insert_all_cons, IH, fmap_cons, elem_of_cons. simpl.
    destruct (decide (k' = k)) as [->|Hne].
    + rewrite lookup_insert_eq. split; [auto|]. intros _. left. eauto.
    + rewrite lookup_insert_ne by done. split.
      * intros [?|?]; auto.
      * intros [?|[?|?]]; auto. congruence.
Qed.

Lemma length_append (s1 s2 : string) :
  String.length (s1 +:+ s2) = String.length s1 + String.length s2.
Proof.
  induction s1 as [|a s1 IH]; [done|].
  change (String a s1 +:+ s2) with (String a (s1 +:+ s2)). simpl. by rewrite IH.
Qed.

Lemma append_cancel_r (s1 s2 t : string) : s1 +:+ t = s2 +:+ t → s1 = s2.
Proof.
  revert s2. induction s1 as [|a s1 IH]; intros [|b s2] H.
  - done.
  - exfalso. apply (f_equal String.length) in H.
    rewrite !length_append in H. simpl in H. lia.
  - exfalso. apply (f_equal String.length) in H.
    rewrite !length_append in H. simpl in H. lia.
  - change (String a (s1 +:+ t) = String b (s2 +:+ t)) in H.
    injection H as -> H. f_equal. by apply IH.
Qed.

Lemma env_key_inj prefix n1 n2 : env_key prefix n1 = env_key prefix n2 → n1 = n2.
Proof.
  unfold env_key. intros H. apply (inj (String.append _)) in H.
  by apply append_cancel_r in H.
Qed.

Lemma append_assoc (s1 s2 s3 : string) : (s1 +:+ s2) +:+ s3 = s1 +:+ (s2 +:+ s3).
Proof.
  induction s1 as [|a s1 IH]; [done|].
  change (String a ((s1 +:+ s2) +:+ s3) = String a (s1 +:+ (s2 +:+ s3))).
  by rewrite IH.
Qed.

Lemma env_key_shape prefix name : canister_id_key (env_key prefix name).
Proof. exists (default "" prefix +:+ name). unfold env_key. by rewrite append_assoc. Qed.

Lemma canister_id_key_not_DFX_NETWORK k : canister_id_key k → k ≠ "DFX_NETWORK".
Proof.
  intros [s ->] Heq. apply (f_equal String.length) in Heq.
  rewrite length_append in Heq. simpl in Heq. lia.
Qed.

Lemma canister_id_keys_empty : canister_id_keys ∅.
Proof. intros k. rewrite lookup_empty. by intros [? ?]. Qed.

Lemma canister_id_keys_insert prefix name v r :
  canister_id_keys r → canister_id_keys (<[env_key prefix name := v]> r).
Proof.
  intros Hr k. destruct (decide (env_key prefix name = k)) as [<-|Hne].
  - intros _. apply env_key_shape.
  - rewrite lookup_insert_ne by done. apply Hr.
Qed.

Lemma lookup_spread (a b : JSRecord) k :
  spread a b !! k = match b !! k with Some v => Some v | None => a !! k end.
Proof.
  unfold spread. destruct (b !! k) as [v|] eqn:Hb.
  - by apply lookup_union_Some_l.
  - by rewrite lookup_union_r.
Qed.

Section Facts.
Variable h : Host.

Lemma read_json_events (path : string) :
  events (read_json h path) = [EvRead path].
Proof.
  unfold read_json, read_file. rewrite !mbind_bind.
  destruct (readFileSync h path) as [text|e]; simpl; [|done].
  by destruct (JSON_parse h text).
Qed.

Lemma read_json_result (path : string) :
  result (read_json h path) =
  match readFileSync h path with
  | Ok text => JSON_parse h text
  | Throw e => Throw e
  end.
Proof.
  unfold read_json, read_file. rewrite !mbind_bind.
  destruct (readFileSync h path) as [text|e]; simpl; [|done].
  by destruct (JSON_parse h text).
Qed.

Lemma readCanisterIds_step_silent prefix acc current :
  events (readCanisterIds_step h prefix acc current) = [].
Proof.
  destruct current as [name details]. unfold readCanisterIds_step.
  rewrite mbind_bind. by destruct (get (members h) details (network h)).
Qed.

Lemma dfxCanisterIds_step_silent prefix acc current :
  events (dfxCanisterIds_step h prefix acc current) = [].
Proof.
  destruct current as [name details]. unfold dfxCanisterIds_step.
  rewrite mbind_bind.
  destruct (get (members h) details "remote") as [remote|e]; [|done].
  rewrite bind_lift_ok.
  assert (events
            (id ← lift (get (members h) remote "id");
             value ← lift (get (members h) id "local");
             mret (<[env_key prefix (dfx_name h name) := value]> acc)) = [])
    as Hrest.
  { rewrite mbind_bind.
    destruct (get (members h) remote "id") as [id|e]; [|done].
    rewrite bind_lift_ok, mbind_bind.
    by destruct (get (members h) id "local"). }
  by destruct remote.
Qed.

Lemma readCanisterIds_try_events prefix :
  events (readCanisterIds_try h prefix) = [EvRead (canisterIdsJsonFile h)].
Proof.
  unfold readCanisterIds_try. rewrite mbind_bind, events_bind, read_json_events.
  destruct (result (read_json h (canisterIdsJsonFile h))) as [config|e]; [|done].
  rewrite mbind_bind. destruct (Object_entries config) as [entries|e]; [|done].
  rewrite bind_lift_ok, reduce_silent; [done|].
  apply readCanisterIds_step_silent.
Qed.

Lemma dfxCanisterIds_try_events prefix :
  events (dfxCanisterIds_try h prefix) = [EvRead (dfxJsonFile h)].
Proof.
  unfold dfxCanisterIds_try. rewrite mbind_bind, events_bind, read_json_events.
  destruct (result (read_json h (dfxJsonFile h))) as [parsed|e]; [|done].
  rewrite mbind_bind.
  destruct (destructure (members h) "JSON.parse(...)" parsed "canisters")
  as [canisters|e]; [|done].
  rewrite bind_lift_ok, mbind_bind.
  destruct (Object_entries canisters) as [entries|e]; [|done].
  rewrite bind_lift_ok, reduce_silent; [done|].
  apply dfxCanisterIds_step_silent.
Qed.

(** The two ways [readCanisterIds] ends. *)
Lemma readCanisterIds_cases prefix :
  (∃ r, readCanisterIds_try h prefix = (Ok r, [EvRead (canisterIdsJsonFile h)]) ∧
        readCanisterIds h prefix = (Ok r, [EvRead (canisterIdsJsonFile h)])) ∨
  (∃ e, result (readCanisterIds_try h prefix) = Throw e ∧
        readCanisterIds h prefix
        = (Ok ∅, [EvRead (canisterIdsJsonFile h);
                  EvWarn (readCanisterIds_warning h e)])).
Proof.
  unfold readCanisterIds.
  destruct (try_catch_cases (readCanisterIds_try h prefix)
    (λ e, _ ← console_warn (readCanisterIds_warning h e); mret ∅))
    as [(r & Hr & ->)|(e & He & ->)].
  - left. exists r.
    rewrite (M_eta (readCanisterIds_try h prefix)), Hr, readCanisterIds_try_events.
    done.
  - right. exists e. split; [done|].
    by rewrite readCanisterIds_try_events.
Qed.

(** The three ways [dfxCanisterIds] ends. *)
Lemma dfxCanisterIds_cases prefix :
  (remote_network h = true ∧ dfxCanisterIds h prefix = (Ok ∅, [])) ∨
  (remote_network h = false ∧
   ∃ r, dfxCanisterIds_try h prefix = (Ok r, [EvRead (dfxJsonFile h)]) ∧
        dfxCanisterIds h prefix = (Ok r, [EvRead (dfxJsonFile h)])) ∨
  (remote_network h = false ∧
   ∃ e, result (dfxCanisterIds_try h prefix) = Throw e ∧
        dfxCanisterIds h prefix
        = (Ok ∅, [EvRead (dfxJsonFile h); EvWarn (dfxCanisterIds_warning h e)])).
Proof.
  unfold dfxCanisterIds. destruct (remote_network h); [left; done|right].
  destruct (try_catch_cases (dfxCanisterIds_try h prefix)
    (λ e, _ ← console_warn (dfxCanisterIds_warning h e); mret ∅))
    as [(r & Hr & ->)|(e & He & ->)].
  - left. split; [done|]. exists r.
    rewrite (M_eta (dfxCanisterIds_try h prefix)), Hr, dfxCanisterIds_try_events.
    done.
  - right. split; [done|]. exists e. split; [done|].
    by rewrite dfxCanisterIds_try_events.
Qed.

Lemma reduce_readCanisterIds_step prefix entries acc :
  Forall (λ e, nullish e.2 = false) entries →
  reduce (readCanisterIds_step h prefix) entries acc
  = (Ok (insert_all acc (ids_bindings h prefix entries)), []).
Proof.
  revert acc. induction entries as [|[n d] entries IH]; intros acc Hall; [done|].
  apply Forall_cons in Hall as [Hd Hall]. simpl in Hd.
  cbn [reduce readCanisterIds_step].
  assert (get (members h) d (network h) = Ok (network_entry h d)) as ->.
  { by destruct d. }
  rewrite mbind_bind, bind_lift_ok, mret_ret, bind_ret, IH by done.
  done.
Qed.

Lemma dfxCanisterIds_step_declared prefix acc n d :
  declared_shape h d = true →
  dfxCanisterIds_step h prefix acc (n, d)
  = ret (if has_remote h d
         then <[dfx_key h prefix n := remote_local_of h d]> acc else acc).
Proof.
  unfold declared_shape, has_remote, remote_local_of, remote_id_of, remote_of.
  intros [Hd Hshape]%andb_prop. cbn [dfxCanisterIds_step].
  assert (get (members h) d "remote" = Ok (lookup_property (members h) d "remote"))
    as ->.
  { by destruct d. }
  rewrite mbind_bind, bind_lift_ok.
  destruct (lookup_property (members h) d "remote") as [| |b|r|s|l|kvs|p];
    simpl in Hshape; try done;
    (match goal with
     | |- context [get ?m ?v "id"] =>
         change (get m v "id") with (Ok (lookup_property m v "id"))
     end;
     rewrite mbind_bind, bind_lift_ok;
     match goal with
     | |- context [get ?m ?v "local"] =>
         assert (get m v "local" = Ok (lookup_property m v "local")) as ->
           by (destruct v; simpl in Hshape; done)
     end;
     by rewrite mbind_bind, bind_lift_ok).
Qed.

Lemma reduce_dfxCanisterIds_step prefix entries acc :
  Forall (λ e, declared_shape h e.2 = true) entries →
  reduce (dfxCanisterIds_step h prefix) entries acc
  = (Ok (insert_all acc (dfx_bindings h prefix entries)), []).
Proof.
  revert acc. induction entries as [|[n d] entries IH]; intros acc Hall; [done|].
  apply Forall_cons in Hall as [Hd Hall]. simpl in Hd.
  cbn [reduce]. rewrite dfxCanisterIds_step_declared, bind_ret, IH by done.
  unfold dfx_bindings. cbn [omap list_omap]. simpl.
  by destruct (has_remote h d).
Qed.

Lemma ids_bindings_keys prefix entries k :
  k ∈ (ids_bindings h prefix entries).*1 ↔
  ∃ n d, (n, d) ∈ entries ∧ k = ids_key h prefix n.
Proof.
  unfold ids_bindings. rewrite <- list_fmap_compose, list_elem_of_fmap. split.
  - intros ([n d] & -> & Hin). eauto.
  - intros (n & d & Hin & ->). exists (n, d). eauto.
Qed.

Lemma dfx_bindings_keys prefix entries k :
  k ∈ (dfx_bindings h prefix entries).*1 ↔
  ∃ n d, (n, d) ∈ entries ∧ has_remote h d = true ∧ k = dfx_key h prefix n.
Proof.
  unfold dfx_bindings. rewrite list_elem_of_fmap. split.
  - intros ([k' v] & -> & Hin). apply list_elem_of_omap in Hin as ([n d] & Hin & Hsome).
    simpl in Hsome. destruct (has_remote h d) eqn:Hremote; [|done].
    injection Hsome as <- <-. eauto.
  - intros (n & d & Hin & Hremote & ->).
    exists (dfx_key h prefix n, remote_local_of h d). split; [done|].
    apply list_elem_of_omap. exists (n, d). split; [done|]. simpl. by rewrite Hremote.
Qed.

Lemma ids_bindings_later prefix n after :
  Forall (λ e, toUpperCase h e.1 ≠ toUpperCase h n) after →
  Forall (λ kv, kv.1 ≠ ids_key h prefix n) (ids_bindings h prefix after).
Proof.
  intros Hafter. unfold ids_bindings. apply Forall_fmap.
  eapply Forall_impl; [exact Hafter|]. intros [n' d'] Hne Heq. simpl in *.
  apply Hne. by apply env_key_inj in Heq.
Qed.

Lemma dfx_bindings_later prefix n after :
  Forall (λ e, has_remote h e.2 = true → dfx_name h e.1 ≠ dfx_name h n) after →
  Forall (λ kv, kv.1 ≠ dfx_key h prefix n) (dfx_bindings h prefix after).
Proof.
  intros Hafter. apply Forall_forall. intros [k v] Hin Heq. simpl in Heq.
  apply list_elem_of_omap in Hin as ([n' d'] & Hin & Hsome). simpl in Hsome.
  destruct (has_remote h d') eqn:Hremote; [|done]. injection Hsome as <- <-.
  rewrite Forall_forall in Hafter. apply (Hafter _ Hin Hremote).
  by apply env_key_inj in Heq.
Qed.

Lemma readCanisterIds_try_mapping prefix entries :
  result (read_json h (canisterIdsJsonFile h)) = Ok (JObj entries) →
  Forall (λ e, nullish e.2 = false) entries →
  result (readCanisterIds_try h prefix)
  = Ok (insert_all ∅ (ids_bindings h prefix entries)).
Proof.
  intros Hread Hall. unfold readCanisterIds_try.
  rewrite mbind_bind, result_bind, Hread. cbn [Object_entries nullish own_properties].
  rewrite mbind_bind, bind_lift_ok, reduce_readCanisterIds_step by done. done.
Qed.

Lemma dfxCanisterIds_try_mapping prefix top entries :
  result (read_json h (dfxJsonFile h)) = Ok (JObj top) →
  assoc "canisters" top = Some (JObj entries) →
  Forall (λ e, declared_shape h e.2 = true) entries →
  result (dfxCanisterIds_try h prefix)
  = Ok (insert_all ∅ (dfx_bindings h prefix entries)).
Proof.
  intros Hread Hcanisters Hall. unfold dfxCanisterIds_try.
  rewrite mbind_bind, result_bind, Hread.
  cbn [destructure]. unfold lookup_property. cbn [own_properties].
rewrite Hcanisters.
  rewrite mbind_bind, bind_lift_ok. cbn [Object_entries nullish own_properties].
  rewrite mbind_bind, bind_lift_ok, reduce_dfxCanisterIds_step by done. done.
Qed.

(** The run of [readCanisterIds] on a file that parses to an object whose
    members are neither [null] nor [undefined]. *)
Lemma readCanisterIds_mapping prefix entries :
  result (read_json h (canisterIdsJsonFile h)) = Ok (JObj entries) →
  Forall (λ e, nullish e.2 = false) entries →
  readCanisterIds h prefix
  = (Ok (insert_all ∅ (ids_bindings h prefix entries)),
     [EvRead (canisterIdsJsonFile h)]).
Proof.
  intros Hread Hall.
  pose proof (readCanisterIds_try_mapping prefix entries Hread Hall) as Htry.
  destruct (readCanisterIds_cases prefix) as [(r & Hr & ->)|(e & He & _)].
  - rewrite Hr in Htry. simpl in Htry. by injection Htry as ->.
  - rewrite Htry in He. discriminate.
Qed.

(** The run of [dfxCanisterIds] on a [dfx.json] of the declared shape. *)
Lemma dfxCanisterIds_mapping prefix top entries :
  remote_network h = false →
  result (read_json h (dfxJsonFile h)) = Ok (JObj top) →
  assoc "canisters" top = Some (JObj entries) →
  Forall (λ e, declared_shape h e.2 = true) entries →
  dfxCanisterIds h prefix
  = (Ok (insert_all ∅ (dfx_bindings h prefix entries)), [EvRead (dfxJsonFile h)]).
Proof.
  intros Hnet Hread Hcanisters Hall.
  pose proof (dfxCanisterIds_try_mapping prefix top entries Hread Hcanisters Hall)
    as Htry.
  destruct (dfxCanisterIds_cases prefix)
    as [[Hnet' _]|[(_ & r & Hr & ->)|(_ & e & He & _)]].
  - congruence.
  - rewrite Hr in Htry. simpl in Htry. by injection Htry as ->.
  - rewrite Htry in He. discriminate.
Qed.

Lemma ids_bindings_last prefix before n d after :
  Forall (λ e, toUpperCase h e.1 ≠ toUpperCase h n) after →
  insert_all ∅ (ids_bindings h prefix (before ++ (n, d) :: after))
    !! ids_key h prefix n
  = Some (network_entry h d).
Proof.
  intros Hafter. unfold ids_bindings. rewrite fmap_app, fmap_cons. cbn [fst snd].
  apply insert_all_lookup_last. by apply ids_bindings_later.
Qed.

Lemma dfx_bindings_last prefix before n d after :
  has_remote h d = true →
  Forall (λ e, has_remote h e.2 = true → dfx_name h e.1 ≠ dfx_name h n) after →
  insert_all ∅ (dfx_bindings h prefix (before ++ (n, d) :: after))
    !! dfx_key h prefix n
  = Some (remote_local_of h d).
Proof.
  intros Hremote Hafter. unfold dfx_bindings.
  rewrite omap_app. cbn [omap list_omap fst snd]. rewrite Hremote.
  apply insert_all_lookup_last. by apply dfx_bindings_later.
Qed.

(** An object without an own property [k] gives [undefined] for [k], unless
    [k] names a member of [Object.prototype]. *)
Lemma lookup_property_absent props k :
  assoc k props = None → k ∉ Object_prototype →
  lookup_property (members h) (JObj props) k = JUndefined.
Proof.
  intros Hown Hproto. unfold lookup_property. cbn [own_properties].
  rewrite Hown. cbn [length_property]. unfold inherited. cbn [kind_of].
  by rewrite bool_decide_eq_false_2.
Qed.

Lemma readCanisterIds_returns prefix :
  ∃ r t, readCanisterIds h prefix = (Ok r, t).
Proof.
  destruct (readCanisterIds_cases prefix) as [(r & _ & ->)|(e & _ & ->)]; eauto.
Qed.

Lemma dfxCanisterIds_returns prefix :
  ∃ r t, dfxCanisterIds h prefix = (Ok r, t).
Proof.
  destruct (dfxCanisterIds_cases prefix)
    as [[_ ->]|[(_ & r & _ & ->)|(_ & e & _ & ->)]]; eauto.
Qed.

Lemma expanded_env_run process_env ids t1 remotes t2 :
  readCanisterIds h (Some "VITE_") = (Ok ids, t1) →
  dfxCanisterIds h (Some "VITE_") = (Ok remotes, t2) →
  expanded_env h process_env
  = (Ok (spread (spread (spread process_env (loadEnv h (mode h) (cwd h))) ids)
                remotes),
     t1 ++ t2).
Proof.
  intros Hids Hremotes. unfold expanded_env.
  rewrite !mbind_bind, Hids. cbn [bind]. rewrite mbind_bind, Hremotes.
  cbn [bind]. rewrite mret_ret. unfold ret. by rewrite app_nil_r.
Qed.

Lemma readCanisterIds_step_keys prefix acc x r :
  canister_id_keys acc → result (readCanisterIds_step h prefix acc x) = Ok r →
  canister_id_keys r.
Proof.
  destruct x as [n d]. intros Hacc. unfold readCanisterIds_step.
  rewrite mbind_bind. destruct (get (members h) d (network h)) as [v|e]; [|done].
  rewrite bind_lift_ok. intros [= <-]. by apply canister_id_keys_insert.
Qed.

Lemma dfxCanisterIds_step_keys prefix acc x r :
  canister_id_keys acc → result (dfxCanisterIds_step h prefix acc x) = Ok r →
  canister_id_keys r.
Proof.
  destruct x as [n d]. intros Hacc. unfold dfxCanisterIds_step.
  rewrite mbind_bind. destruct (get (members h) d "remote") as [remote|e]; [|done].
  rewrite bind_lift_ok.
  assert (result
            (id ← lift (get (members h) remote "id");
             value ← lift (get (members h) id "local");
             mret (<[env_key prefix (dfx_name h n) := value]> acc)) = Ok r →
          canister_id_keys r) as Hrest.
  { rewrite mbind_bind. destruct (get (members h) remote "id") as [id|e]; [|done].
    rewrite bind_lift_ok, mbind_bind.
    destruct (get (members h) id "local") as [v|e]; [|done].
    rewrite bind_lift_ok. intros [= <-]. by apply canister_id_keys_insert. }
  destruct remote; try exact Hrest. by intros [= <-].
Qed.

Lemma readCanisterIds_keys prefix r :
  result (readCanisterIds h prefix) = Ok r → canister_id_keys r.
Proof.
  destruct (readCanisterIds_cases prefix) as [(r' & Htry & ->)|(e & _ & ->)];
    intros [= <-]; [|apply canister_id_keys_empty].
  apply (f_equal result) in Htry. simpl in Htry. unfold readCanisterIds_try in Htry.
  rewrite mbind_bind, result_bind in Htry.
  destruct (result (read_json h (canisterIdsJsonFile h))) as [config|e]; [|done].
  rewrite mbind_bind in Htry. destruct (Object_entries config) as [entries|e]; [|done].
  rewrite bind_lift_ok in Htry.
  eapply reduce_invariant; [|apply canister_id_keys_empty|exact Htry].
  intros acc x r0. apply readCanisterIds_step_keys.
Qed.

Lemma dfxCanisterIds_keys prefix r :
  result (dfxCanisterIds h prefix) = Ok r → canister_id_keys r.
Proof.
  destruct (dfxCanisterIds_cases prefix)
    as [[_ ->]|[(_ & r' & Htry & ->)|(_ & e & _ & ->)]];
    intros [= <-]; try apply canister_id_keys_empty.
  apply (f_equal result) in Htry. simpl in Htry. unfold dfxCanisterIds_try in Htry.
  rewrite mbind_bind, result_bind in Htry.
  destruct (result (read_json h (dfxJsonFile h))) as [parsed|e]; [|done].
  rewrite mbind_bind in Htry.
  destruct (destructure (members h) "JSON.parse(...)" parsed "canisters")
  as [canisters|e]; [|done].
  rewrite bind_lift_ok, mbind_bind in Htry.
  destruct (Object_entries canisters) as [entries|e]; [|done].
  rewrite bind_lift_ok in Htry.
  eapply reduce_invariant; [|apply canister_id_keys_empty|exact Htry].
  intros acc x r0. apply dfxCanisterIds_step_keys.
Qed.
End Facts.

End ViteConfigFacts.

(** ** Statements of the specification about the script *)

Module ViteConfigClaims.
Import JS Eff ViteConfig ViteConfigSpec ViteConfigExamples EffFacts ViteConfigFacts.

(** *** The script on the sample project *)

Example sample_dfx_key :
  dfx_key (sample_host None) (Some "VITE_") "my-canister's"
  = "VITE_MY_CANISTERS_CANISTER_ID".
Proof. reflexivity. Qed.

Example sample_readCanisterIds :
  readCanisterIds (sample_host None) None
  = (Ok (<["FRONTEND_CANISTER_ID" := JStr "def"]>
           (<["BACKEND_CANISTER_ID" := JStr "abc"]> ∅)),
     [EvRead local_ids_file]).
Proof. by vm_compute. Qed.

Example sample_dfxCanisterIds :
  dfxCanisterIds (sample_host None) None
  = (Ok (<["INTERNET_IDENTITY_CANISTER_ID" := JStr "bkyz2"]> ∅), [EvRead dfx_file]).
Proof. by vm_compute. Qed.

(** A [null] canister makes the whole record empty: the entry written for
    [backend] before the exception is not kept. *)
Example null_details_leave_no_partial_record :
  readCanisterIds null_details_host None
  = (Ok ∅,
     [EvRead local_ids_file;
      EvWarn ("Could not get canister ID from /app/.dfx/local/canister_ids.json: "
              +:+ "TypeError: Cannot read properties of null (reading 'local')")]).
Proof. by vm_compute. Qed.

(** On [ic] the file at the root of the project is read. *)
Example ic_reads_the_root_file :
  events (readCanisterIds (bare_host (Some "ic")) None)
  = [EvRead "/app/canister_ids.json";
     EvWarn ("Could not get canister ID from /app/canister_ids.json: "
             +:+ "Error: ENOENT: no such file or directory, "
             +:+ "open '/app/canister_ids.json'")].
Proof. by vm_compute. Qed.

Example sample_define :
  (λ run, match run with
          | Ok (_, cfg) => map_to_list (define_process_env (define cfg))
          | Throw _ => []
          end)
    (result (defineConfig (sample_host None) (JStr "0.0.1") tt ∅))
  = [("INTERNET_IDENTITY_CANISTER_ID", JStr "bkyz2");
     ("FRONTEND_CANISTER_ID", JStr "def");
     ("BACKEND_CANISTER_ID", JStr "abc");
     ("DFX_NETWORK", JStr "local")].
Proof. by vm_compute. Qed.

(** C6. Whatever the files hold and whatever the network is, [readCanisterIds]
    and [dfxCanisterIds] return a record: no exception leaves them.  Each reads
    its file at most once, and the record is the one the [try] block built
    when the block completed and the empty record when anything in the block
    threw (nothing of a partly built record is kept). *)
Theorem no_exception_escapes (h : Host) (prefix : option string) :
  (∃ r, result (readCanisterIds h prefix) = Ok r ∧
        reads (events (readCanisterIds h prefix)) ≤ 1 ∧
        (result (readCanisterIds_try h prefix) = Ok r ∨
         (∃ e, result (readCanisterIds_try h prefix) = Throw e) ∧ r = ∅)) ∧
  (∃ r, result (dfxCanisterIds h prefix) = Ok r ∧
        reads (events (dfxCanisterIds h prefix)) ≤ 1 ∧
        (remote_network h = true ∧ r = ∅ ∨
         result (dfxCanisterIds_try h prefix) = Ok r ∨
         (∃ e, result (dfxCanisterIds_try h prefix) = Throw e) ∧ r = ∅)).
Proof.
  split.
  - destruct (readCanisterIds_cases h prefix) as [(r & Htry & ->)|(e & Htry & ->)].
    + exists r. rewrite Htry. simpl. auto.
    + exists ∅. simpl. split; [done|]. split; [unfold reads; simpl; lia|].
      right. eauto.
  - destruct (dfxCanisterIds_cases h prefix)
      as [[Hnet ->]|[(Hnet & r & Htry & ->)|(Hnet & e & Htry & ->)]].
    + exists ∅. simpl. split; [done|]. split; [unfold reads; simpl; lia|]. auto.
    + exists r. rewrite Htry. simpl. auto.
    + exists ∅. simpl. split; [done|]. split; [unfold reads; simpl; lia|].
      right. right. eauto.
Qed.

(** C8. On the networks [ic] and [staging], [dfxCanisterIds] returns the empty
    record and does nothing else: it reads no file and prints nothing. *)
Theorem dfxCanisterIds_remote_network (h : Host) (prefix : option string) :
  network h = "ic" ∨ network h = "staging" →
  dfxCanisterIds h prefix = (Ok ∅, []) ∧
  reads (events (dfxCanisterIds h prefix)) = 0.
Proof.
  intros Hnet.
  assert (remote_network h = true) as Hremote.
  { unfold remote_network. apply bool_decide_eq_true.
    destruct Hnet as [-> | ->]; set_solver. }
  unfold dfxCanisterIds. rewrite Hremote. done.
Qed.

Lemma dfxCanisterIds_remote_network_witness :
  dfxCanisterIds (bare_host (Some "staging")) (Some "VITE_") = (Ok ∅, []) ∧
  reads (events (dfxCanisterIds (bare_host (Some "staging")) (Some "VITE_"))) = 0.
Proof.
  apply (dfxCanisterIds_remote_network (bare_host (Some "staging")) (Some "VITE_")).
  right. reflexivity.
Defined.

(** C1, as stated, fails for [dfxCanisterIds]: on the network [ic] the file
    [dfx.json] is missing, and the function prints no warning. *)
Lemma missing_dfx_json_on_ic_warns_nothing :
  let h := bare_host (Some "ic") in
  (∃ e, result (read_json h (dfxJsonFile h)) = Throw e) ∧
  result (dfxCanisterIds h None) = Ok ∅ ∧
  warnings (events (dfxCanisterIds h None)) = 0.
Proof. simpl. split; [eexists|split]; reflexivity. Qed.

(** C1, amended. When reading or parsing its file fails, [readCanisterIds]
    returns the empty record after exactly one warning; so does
    [dfxCanisterIds] when the network is neither [ic] nor [staging]. *)
Theorem failed_read_gives_empty_record_and_one_warning
    (h : Host) (prefix : option string) :
  (∀ e, result (read_json h (canisterIdsJsonFile h)) = Throw e →
        readCanisterIds h prefix
        = (Ok ∅, [EvRead (canisterIdsJsonFile h);
                  EvWarn (readCanisterIds_warning h e)]) ∧
        warnings (events (readCanisterIds h prefix)) = 1) ∧
  (∀ e, result (read_json h (dfxJsonFile h)) = Throw e →
        remote_network h = false →
        dfxCanisterIds h prefix
        = (Ok ∅, [EvRead (dfxJsonFile h); EvWarn (dfxCanisterIds_warning h e)]) ∧
        warnings (events (dfxCanisterIds h prefix)) = 1).
Proof.
  split; intros e Hfail.
  - assert (result (readCanisterIds_try h prefix) = Throw e) as Htry.
    { unfold readCanisterIds_try. by rewrite mbind_bind, result_bind, Hfail. }
    destruct (readCanisterIds_cases h prefix) as [(r & Hr & _)|(e' & He' & ->)].
    + rewrite Hr in Htry. discriminate.
    + rewrite Htry in He'. by injection He' as <-.
  - intros Hnet.
    assert (result (dfxCanisterIds_try h prefix) = Throw e) as Htry.
    { unfold dfxCanisterIds_try. by rewrite mbind_bind, result_bind, Hfail. }
    destruct (dfxCanisterIds_cases h prefix)
      as [[Hnet' _]|[(_ & r & Hr & _)|(_ & e' & He' & ->)]].
    + congruence.
    + rewrite Hr in Htry. discriminate.
    + rewrite Htry in He'. by injection He' as <-.
Qed.

Lemma failed_read_gives_empty_record_and_one_warning_witness :
  let h := bare_host None in
  warnings (events (readCanisterIds h None)) = 1 ∧
  warnings (events (dfxCanisterIds h None)) = 1.
Proof.
  simpl. split.
  - eapply (proj1 (failed_read_gives_empty_record_and_one_warning (bare_host None) None)).
    reflexivity.
  - eapply (proj2 (failed_read_gives_empty_record_and_one_warning (bare_host None) None));
      reflexivity.
Defined.

(** C2, as stated, fails when two canister names have the same uppercase
    form: of [a] and [A], the key [A_CANISTER_ID] is bound to the entry of
    [A], the later one, and the entry of [a] is nowhere in the record. *)
Lemma colliding_names_keep_the_later_entry :
  let h := colliding_ids_host in
  result (read_json h (canisterIdsJsonFile h)) = Ok (JObj colliding_ids) ∧
  ("a", JObj [("local", JStr "x")]) ∈ colliding_ids ∧
  network_entry h (JObj [("local", JStr "x")]) = JStr "x" ∧
  ∃ r, result (readCanisterIds h None) = Ok r ∧
       r !! ids_key h None "a" = Some (JStr "y").
Proof.
  simpl. split; [reflexivity|]. split; [apply list_elem_of_here|].
  split; [reflexivity|]. eexists. split; [reflexivity|]. by vm_compute.
Qed.

(** C2, amended. When [canister_ids.json] parses to an object whose members
    are objects, [readCanisterIds] returns a record whose keys are exactly the
    keys made of the canister names (the prefix, empty when absent, the name in
    uppercase, [_CANISTER_ID]); the key of a canister is bound to that
    canister's entry for the current network when no later canister of the
    file has the same uppercase name. *)
Theorem readCanisterIds_record (h : Host) (prefix : option string)
    (entries : list (string * JSValue)) :
  result (read_json h (canisterIdsJsonFile h)) = Ok (JObj entries) →
  Forall (λ e, nullish e.2 = false) entries →
  ∃ r, readCanisterIds h prefix = (Ok r, [EvRead (canisterIdsJsonFile h)]) ∧
       (∀ k, is_Some (r !! k) ↔
             ∃ n d, (n, d) ∈ entries ∧ k = ids_key h prefix n) ∧
       (∀ before n d after,
          entries = before ++ (n, d) :: after →
          Forall (λ e, toUpperCase h e.1 ≠ toUpperCase h n) after →
          r !! ids_key h prefix n = Some (network_entry h d)).
Proof.
  intros Hread Hall.
  exists (insert_all ∅ (ids_bindings h prefix entries)). split; [|split].
  - by apply readCanisterIds_mapping.
  - intros k. rewrite insert_all_is_Some, lookup_empty, ids_bindings_keys.
    split; [intros [[? ?]|?]; done|auto].
  - intros before n d after -> Hafter. by apply ids_bindings_last.
Qed.

Lemma readCanisterIds_record_witness :
  let h := sample_host None in
  ∃ r, readCanisterIds h (Some "VITE_") = (Ok r, [EvRead (canisterIdsJsonFile h)]) ∧
       r !! ids_key h (Some "VITE_") "backend" = Some (JStr "abc") ∧
       r !! ids_key h (Some "VITE_") "frontend" = Some (JStr "def").
Proof.
  simpl.
  destruct (readCanisterIds_record (sample_host None) (Some "VITE_") sample_ids)
    as (r & Hrun & _ & Hvalue).
  - reflexivity.
  - repeat constructor.
  - exists r. split; [exact Hrun|]. split.
    + apply (Hvalue [] "backend" (JObj [("local", JStr "abc")])
               [("frontend", JObj [("local", JStr "def")])]); [reflexivity|].
      repeat constructor. by vm_compute.
    + apply (Hvalue [("backend", JObj [("local", JStr "abc")])] "frontend"
               (JObj [("local", JStr "def")]) []); [reflexivity|constructor].
Defined.

(** C10, as stated, fails in two ways.  With [DFX_NETWORK=constructor] the
    details of [backend] have no entry for the network, and yet its key is
    bound to [Object.prototype.constructor].  And on the local network the
    canister [a], deployed on [ic] only, has its key bound to the entry of the
    later canister [A]. *)
Lemma missing_entry_is_not_always_undefined :
  (let h := constructor_host in
   result (read_json h (canisterIdsJsonFile h)) = Ok (JObj sample_ids) ∧
   assoc (network h) [("local", JStr "abc")] = None ∧
   ∃ r, result (readCanisterIds h None) = Ok r ∧
        r !! ids_key h None "backend"
        = Some (JBuiltin "Object.prototype.constructor")) ∧
  (let h := half_deployed_host in
   result (read_json h (canisterIdsJsonFile h)) = Ok (JObj half_deployed_ids) ∧
   assoc (network h) [("ic", JStr "x")] = None ∧
   ∃ r, result (readCanisterIds h None) = Ok r ∧
        r !! ids_key h None "a" = Some (JStr "y")).
Proof.
  simpl. split.
  - split; [reflexivity|]. split; [reflexivity|].
    eexists. split; [reflexivity|]. by vm_compute.
  - split; [reflexivity|]. split; [reflexivity|].
    eexists. split; [reflexivity|]. by vm_compute.
Qed.

(** C10, amended. When the details object of a canister has no entry for the
    current network, [readCanisterIds] still puts the canister's key into the
    record, bound to [undefined]; this holds when the members of the file are
    objects, the network is not the name of a member of [Object.prototype],
    and no later canister of the file has the same uppercase name. *)
Theorem missing_entry_is_bound_to_undefined (h : Host) (prefix : option string)
    (entries before after : list (string * JSValue)) (n : string)
    (props : list (string * JSValue)) :
  result (read_json h (canisterIdsJsonFile h)) = Ok (JObj entries) →
  Forall (λ e, nullish e.2 = false) entries →
  entries = before ++ (n, JObj props) :: after →
  assoc (network h) props = None →
  network h ∉ Object_prototype →
  Forall (λ e, toUpperCase h e.1 ≠ toUpperCase h n) after →
  ∃ r, result (readCanisterIds h prefix) = Ok r ∧
       r !! ids_key h prefix n = Some JUndefined.
Proof.
  intros Hread Hall -> Hown Hproto Hafter.
  rewrite (readCanisterIds_mapping h prefix _ Hread Hall).
  eexists. split; [reflexivity|].
  rewrite ids_bindings_last by done.
  unfold network_entry. by rewrite lookup_property_absent.
Qed.

Lemma missing_entry_is_bound_to_undefined_witness :
  let h := testnet_host in
  ∃ r, result (readCanisterIds h None) = Ok r ∧
       r !! ids_key h None "backend" = Some JUndefined.
Proof.
  simpl.
  apply (missing_entry_is_bound_to_undefined testnet_host None sample_ids []
           [("frontend", JObj [("local", JStr "def")])] "backend"
           [("local", JStr "abc")]).
  - reflexivity.
  - repeat constructor.
  - reflexivity.
  - reflexivity.
  - apply (bool_decide_unpack _). by vm_compute.
  - repeat constructor. by vm_compute.
Defined.

(** C9, as stated, fails when two canister names give the same key: of [a-b]
    and [a_b], the key [A_B_CANISTER_ID] is bound to the local id of [a_b],
    the later one, and not to that of [a-b]. *)
Lemma colliding_remote_names_keep_the_later_id :
  let h := colliding_dfx_host in
  result (read_json h (dfxJsonFile h))
  = Ok (JObj [("canisters", JObj colliding_canisters)]) ∧
  ("a-b", remote_value "p" "1") ∈ colliding_canisters ∧
  has_remote h (remote_value "p" "1") = true ∧
  remote_local_of h (remote_value "p" "1") = JStr "1" ∧
  ∃ r, result (dfxCanisterIds h None) = Ok r ∧
       r !! dfx_key h None "a-b" = Some (JStr "2").
Proof.
  simpl. split; [reflexivity|]. split; [apply list_elem_of_here|].
  split; [reflexivity|]. split; [reflexivity|].
  eexists. split; [reflexivity|]. by vm_compute.
Qed.

(** C9, amended. On a network other than [ic] and [staging], when [dfx.json]
    parses to an object whose [canisters] are of the declared shape,
    [dfxCanisterIds] returns a record whose keys are exactly the keys made of
    the names of the canisters that have a [remote] (the prefix, the name with
    each [-] turned into [_] and each apostrophe removed, in uppercase,
    [_CANISTER_ID]); canisters without [remote] give nothing.  The key of a
    canister with a [remote] is bound to its [remote.id.local] when no later
    canister with a [remote] gives the same key. *)
Theorem dfxCanisterIds_record (h : Host) (prefix : option string)
    (top entries : list (string * JSValue)) :
  remote_network h = false →
  result (read_json h (dfxJsonFile h)) = Ok (JObj top) →
  assoc "canisters" top = Some (JObj entries) →
  Forall (λ e, declared_shape h e.2 = true) entries →
  ∃ r, dfxCanisterIds h prefix = (Ok r, [EvRead (dfxJsonFile h)]) ∧
       (∀ k, is_Some (r !! k) ↔
             ∃ n d, (n, d) ∈ entries ∧ has_remote h d = true ∧
                    k = dfx_key h prefix n) ∧
       (∀ before n d after,
          entries = before ++ (n, d) :: after →
          has_remote h d = true →
          Forall (λ e, has_remote h e.2 = true → dfx_name h e.1 ≠ dfx_name h n)
                 after →
          r !! dfx_key h prefix n = Some (remote_local_of h d)).
Proof.
  intros Hnet Hread Hcanisters Hall.
  exists (insert_all ∅ (dfx_bindings h prefix entries)). split; [|split].
  - by eapply dfxCanisterIds_mapping.
  - intros k. rewrite insert_all_is_Some, lookup_empty, dfx_bindings_keys.
    split; [intros [[? ?]|?]; done|auto].
  - intros before n d after -> Hremote Hafter. by apply dfx_bindings_last.
Qed.

Lemma dfxCanisterIds_record_witness :
  let h := sample_host None in
  ∃ r, dfxCanisterIds h None = (Ok r, [EvRead (dfxJsonFile h)]) ∧
       r !! dfx_key h None "internet-identity" = Some (JStr "bkyz2") ∧
       r !! dfx_key h None "backend" = None.
Proof.
  simpl.
  destruct (dfxCanisterIds_record (sample_host None) None sample_dfx sample_canisters)
    as (r & Hrun & Hkeys & Hvalue).
  - reflexivity.
  - reflexivity.
  - reflexivity.
  - repeat constructor.
  - exists r. split; [exact Hrun|]. split.
    + apply (Hvalue [] "internet-identity" (remote_value "rdmx6" "bkyz2")
               [("backend", JObj [("type", JStr "rust")])]);
        [reflexivity|reflexivity|].
      repeat constructor. intros Hremote. discriminate Hremote.
    + apply eq_None_not_Some. intros Hsome. apply Hkeys in Hsome.
      destruct Hsome as (n & d & Hin & Hremote & Hkey).
      apply env_key_inj in Hkey.
      apply elem_of_cons in Hin as [Hin|Hin].
      * injection Hin as -> ->. vm_compute in Hkey. discriminate Hkey.
      * apply elem_of_cons in Hin as [Hin|Hin];
          [injection Hin as -> ->; discriminate Hremote|].
        by apply elem_of_nil in Hin.
Defined.

(** C7. The callback of [defineConfig] returns a configuration, whatever the
    deployment files hold.  The new [process.env] is the old one overlaid with
    [loadEnv], then with the [VITE_] record of [readCanisterIds], then with
    the [VITE_] record of [dfxCanisterIds]: every variable of these two
    records is in it with its value.  [define['process.env']] is the
    unprefixed records of the two functions with [DFX_NETWORK] added, bound to
    the network: every variable of the two records is in it with its value. *)
Theorem defineConfig_injects_canister_ids (h : Host) {Static : Type}
    (version : JSValue) (config : Static) (process_env : JSRecord) :
  ∃ ids_V remotes_V ids remotes process_env' cfg,
    result (readCanisterIds h (Some "VITE_")) = Ok ids_V ∧
    result (dfxCanisterIds h (Some "VITE_")) = Ok remotes_V ∧
    result (readCanisterIds h None) = Ok ids ∧
    result (dfxCanisterIds h None) = Ok remotes ∧
    result (defineConfig h version config process_env) = Ok (process_env', cfg) ∧
    process_env'
    = spread (spread (spread process_env (loadEnv h (mode h) (cwd h))) ids_V)
             remotes_V ∧
    (∀ k v, spread ids_V remotes_V !! k = Some v → process_env' !! k = Some v) ∧
    static cfg = config ∧
    define_process_env (define cfg)
    = <["DFX_NETWORK" := JStr (network h)]> (spread ids remotes) ∧
    define_process_env (define cfg) !! "DFX_NETWORK" = Some (JStr (network h)) ∧
    (∀ k v, spread ids remotes !! k = Some v →
            define_process_env (define cfg) !! k = Some v).
Proof.
  destruct (readCanisterIds_returns h (Some "VITE_")) as (ids_V & t1 & Hids_V).
  destruct (dfxCanisterIds_returns h (Some "VITE_")) as (remotes_V & t2 & Hremotes_V).
  destruct (readCanisterIds_returns h None) as (ids & t3 & Hids).
  destruct (dfxCanisterIds_returns h None) as (remotes & t4 & Hremotes).
  eexists ids_V, remotes_V, ids, remotes, _, _.
  rewrite Hids_V, Hremotes_V, Hids, Hremotes.
  repeat (split; [reflexivity|]).
  unfold defineConfig.
  rewrite mbind_bind, (expanded_env_run h _ _ _ _ _ Hids_V Hremotes_V). cbn [bind].
  rewrite mbind_bind, (expanded_env_run h _ _ _ _ _ Hids_V Hremotes_V). cbn [bind].
  rewrite mbind_bind. cbn [emit bind].
  rewrite mbind_bind, Hids. cbn [bind]. rewrite mbind_bind, Hremotes. cbn [bind].
  rewrite mret_ret. cbn [ret result fst].
  split; [reflexivity|]. cbn [static define define_process_env].
  split; [reflexivity|]. split; [|split; [reflexivity|]].
  - intros k v Hk. rewrite lookup_spread in Hk. rewrite !lookup_spread.
    destruct (remotes_V !! k); [done|]. by rewrite Hk.
  - split; [reflexivity|]. split; [apply lookup_insert_eq|].
    intros k v Hk. rewrite lookup_insert_ne; [done|].
    intros <-. rewrite lookup_spread in Hk.
    assert (canister_id_key "DFX_NETWORK") as Hshape.
    { destruct (remotes !! "DFX_NETWORK") eqn:Hr.
      - eapply (dfxCanisterIds_keys h None remotes); [by rewrite Hremotes|].
        rewrite Hr. eauto.
      - eapply (readCanisterIds_keys h None ids); [by rewrite Hids|].
        rewrite Hk. eauto. }
    by apply canister_id_key_not_DFX_NETWORK in Hshape.
Qed.

End ViteConfigClaims.

(** ** Statements of the specification about the message envelope *)

Module PostMessageClaims.
Import JS PostMessageTypes.

Lemma tag_inj (r1 r2 : PostMessageRequest) : tag r1 = tag r2 → r1 = r2.
Proof. destruct r1, r2; simpl; intros H; first [reflexivity|discriminate H]. Qed.

Lemma tag_values (s : string) :
  (∃ r, tag r = s) ↔ s ∈ ["start"; "stop"; "busy"; "idle"].
Proof.
  split.
  - intros [r <-]. destruct r; simpl.
    + apply list_elem_of_here.
    + do 1 apply list_elem_of_further. apply list_elem_of_here.
    + do 2 apply list_elem_of_further. apply list_elem_of_here.
    + do 3 apply list_elem_of_further. apply list_elem_of_here.
  - intros Hin. repeat (apply elem_of_cons in Hin as [->|Hin]);
      [by exists start|by exists stop|by exists busy|by exists idle|].
    by apply elem_of_nil in Hin.
Qed.

(** C4. The request tag is one of the four strings [start], [stop], [busy] and
    [idle], each the tag of one request value; the response tag is any value
    of type [object], that is any value that is not a primitive, whatever its
    properties. *)
Theorem request_tags_and_open_response :
  (∀ s, (∃ r, tag r = s) ↔ s ∈ ["start"; "stop"; "busy"; "idle"]) ∧
  (∀ r1 r2, tag r1 = tag r2 → r1 = r2) ∧
  tag <$> [start; stop; busy; idle] = ["start"; "stop"; "busy"; "idle"] ∧
  (∀ v, is_object v = true ↔ ∃ r : PostMessageResponse, proj1_sig r = v) ∧
  (∀ props, ∃ r : PostMessageResponse, proj1_sig r = JObj props).
Proof.
  split; [exact tag_values|]. split; [exact tag_inj|]. split; [reflexivity|].
  split.
  - intros v. split.
    + intros Hv. by exists (exist _ v Hv).
    + intros [[v' Hv'] <-]. exact Hv'.
  - intros props. by exists (exist (λ v, is_object v = true) (JObj props) eq_refl).
Qed.

Lemma carries_declared (T : ObjectType) (k : string) (v : Value T) :
  carries T k v = true → ∃ d, d ∈ T ∧ property_name d = k.
Proof.
  induction T as [|d T IH]; [done|]. destruct v as [x v].
  cbn [carries fst snd]. intros [Hhead|Hrest]%orb_prop.
  - apply andb_prop in Hhead as [Hname _]. apply bool_decide_eq_true in Hname.
    exists d. split; [apply list_elem_of_here|done].
  - destruct (IH v Hrest) as (d' & Hin & Hname).
    exists d'. split; [by apply list_elem_of_further|done].
Qed.

Lemma present_required (d : Property) (x : Held d) :
  optional d = false → present d x = true.
Proof. destruct d as [n o ty]. simpl in *. intros ->. reflexivity. Qed.

Lemma carries_required (T : ObjectType) (k : string) (v : Value T) :
  required T k → carries T k v = true.
Proof.
  intros (d & Hin & Hname & Hrequired).
  induction T as [|d' T IH]; [by apply elem_of_nil in Hin|].
  destruct v as [x v]. cbn [carries fst snd].
  apply elem_of_cons in Hin as [<-|Hin].
  - rewrite bool_decide_eq_true_2 by done. by rewrite present_required.
  - rewrite (IH v Hin). apply orb_true_r.
Qed.

Lemma elem_of_Pick (T : ObjectType) (K : list string) (d : Property) :
  d ∈ Pick T K ↔ d ∈ T ∧ property_name d ∈ K.
Proof. unfold Pick. rewrite list_elem_of_filter. tauto. Qed.

Lemma elem_of_PostMessageDataRequest_type (UserOption : Type)
    (Environment : ObjectType) (d : Property) :
  d ∈ PostMessageDataRequest_type UserOption Environment ↔
  d ∈ declared UserOption ∨ (d ∈ Environment ∧ property_name d ∈ picked_keys).
Proof.
  unfold PostMessageDataRequest_type, intersection.
  by rewrite elem_of_app, elem_of_Pick.
Qed.

(** C5, as stated, fails: [Pick] takes [localIdentityCanisterId] from
    [Environment] with its modifier, and [Environment] declares it optional.
    [{ user, governanceId: 'gov', satelliteId: 'sat' }] is a request payload,
    and it carries one deployment-environment identifier only. *)
Lemma payload_may_leave_out_local_identity :
  payload_carries payload_without_local_identity "user" = true ∧
  payload_carries payload_without_local_identity "governanceId" = true ∧
  payload_carries payload_without_local_identity "satelliteId" = true ∧
  payload_carries payload_without_local_identity "localIdentityCanisterId" = false.
Proof. repeat split; reflexivity. Qed.

(** C5, amended. Whatever [Environment] is, a request payload carries a
    [user] and a [governanceId], and each of [satelliteId] and
    [localIdentityCanisterId] that [Environment] declares as required (one
    that [Environment] declares as optional may be left out).  It has no
    property beside these four: its declarations are those of [user] and
    [governanceId] and the declarations that [Environment] has of the two
    picked names, with their modifiers and types. *)
Theorem request_payload_properties (UserOption : Type) (Environment : ObjectType)
    (p : PostMessageDataRequest UserOption Environment) :
  payload_carries p "user" = true ∧
  payload_carries p "governanceId" = true ∧
  (∀ k, k ∈ picked_keys → required Environment k → payload_carries p k = true) ∧
  (∀ k, payload_carries p k = true →
        k ∈ ["user"; "governanceId"; "satelliteId"; "localIdentityCanisterId"]) ∧
  (∀ d, d ∈ PostMessageDataRequest_type UserOption Environment ↔
        d ∈ declared UserOption ∨
        (d ∈ Environment ∧ property_name d ∈ picked_keys)).
Proof.
  split; [reflexivity|]. split; [|split; [|split]].
  - unfold payload_carries. destruct p as [u [g rest]]. cbn.
    by rewrite orb_true_r.
  - intros k Hpicked (d & Hin & Hname & Hrequired). apply carries_required.
    exists d. split; [|done]. apply elem_of_PostMessageDataRequest_type.
    right. by rewrite Hname.
  - intros k Hk. apply carries_declared in Hk as (d & Hin & <-).
    apply elem_of_PostMessageDataRequest_type in Hin as [Hin|[_ Hin]].
    + apply elem_of_cons in Hin as [->|Hin]; [apply list_elem_of_here|].
      apply elem_of_cons in Hin as [->|Hin];
        [apply list_elem_of_further, list_elem_of_here|].
      by apply elem_of_nil in Hin.
    + by do 2 apply list_elem_of_further.
  - apply elem_of_PostMessageDataRequest_type.
Qed.

(** C3, as stated, fails: [{ msg: 'idle', data: {} }] is an envelope, and no
    reading of "the message kind requires a payload" that leaves out some
    message kind is enforced by the type. *)
Lemma payload_is_not_tied_to_the_message_kind :
  (msg idle_with_payload = inl idle ∧ data idle_with_payload = Some empty_object) ∧
  ¬ ∃ required : Requirement,
      (∃ k, required k = false) ∧
      ∀ m : PostMessage unit juno_Environment PostMessageDataResponse,
        is_Some (data m) → required (msg m) = true.
Proof.
  split; [by split|]. intros (required & [k Hk] & Hall).
  specialize (Hall {| msg := k; data := Some empty_object |}). simpl in Hall.
  rewrite Hk in Hall. by discriminate Hall.
Qed.

(** C3, amended. The payload of an envelope is optional whatever the message
    kind: every [msg] goes with every payload and with no payload. *)
Theorem payload_is_optional_for_every_kind
    (UserOption : Type) (Environment : ObjectType) (T : Type)
    `{!PostMessageData UserOption Environment T}
    (k : PostMessageRequest + PostMessageResponse) (d : option T) :
  ∃ m : PostMessage UserOption Environment T,
    msg m = k ∧ data m = d.
Proof. by exists {| msg := k; data := d |}. Qed.

End PostMessageClaims.

(** ** The rest of the script: auxiliary facts *)

Module ViteConfigRestFacts.
Import JS Eff ViteConfig ViteConfigSpec ViteConfigExamples ViteConfigRest.
Import EffFacts ViteConfigFacts.

Lemma startsWith_spec s p : startsWith s p = true ↔ ∃ post, s = p +:+ post.
Proof.
  revert s. induction p as [|a p IH]; intros s.
  - split; [intros _; by exists s|by destruct s].
  - destruct s as [|b s]; simpl.
    + split; [done|]. intros [post H]. discriminate H.
    + destruct (decide (a = b)) as [->|Hne].
      * rewrite IH. split; intros [post H]; exists post.
        -- by rewrite H.
        -- change (String b s = String b (p +:+ post)) in H. by injection H.
      * split; [done|]. intros [post H].
        change (String b s = String a (p +:+ post)) in H. injection H as -> _. done.
Qed.

Lemma includes_spec s sub :
  includes s sub = true ↔ ∃ pre post, s = pre +:+ sub +:+ post.
Proof.
  induction s as [|b s IH].
  - cbn [includes]. rewrite orb_false_r, startsWith_spec. split.
    + intros [post H]. by exists "", post.
    + intros (pre & post & H). destruct pre; [by exists post|discriminate H].
  - cbn [includes]. rewrite orb_true_iff, startsWith_spec, IH. split.
    + intros [[post H]|(pre & post & H)].
      * by exists "", post.
      * exists (String b pre), post. by rewrite H.
    + intros (pre & post & H). destruct pre as [|c pre].
      * left. by exists post.
      * right. exists pre, post.
        change (String b s = String c (pre +:+ sub +:+ post)) in H. by injection H.
Qed.

Lemma includes_trans s a b :
  includes s a = true → includes a b = true → includes s b = true.
Proof.
  rewrite !includes_spec. intros (pre & post & ->) (pre' & post' & ->).
  exists (pre +:+ pre'), (post' +:+ post). by rewrite !append_assoc.
Qed.

Lemma find_none_includes folder (libs : list string) :
  is_undefined (find (λ lib, includes folder lib) libs)
  = forallb (λ lib, negb (includes folder lib)) libs.
Proof.
  induction libs as [|lib libs IH]; [done|]. simpl.
  destruct (includes folder lib); [done|]. exact IH.
Qed.

(** A character is in a string exactly when the string includes the string
    made of that character. *)
Lemma includes_char s c :
  includes s (String c EmptyString) = true ↔ c ∈ String.list_ascii_of_string s.
Proof.
  induction s as [|b s IH].
  - simpl. split; [done|]. intros H. by apply elem_of_nil in H.
  - cbn [includes startsWith String.list_ascii_of_string].
    rewrite orb_true_iff, IH, elem_of_cons.
    destruct (decide (c = b)) as [->|Hne].
    + split; [by left|]. intros _. left. by destruct s.
    + split; [intros [?|?]; [done|by right]|]. intros [?|?]; [done|by right].
Qed.

Lemma replaceAll_chars c r s x :
  x ∈ String.list_ascii_of_string (replaceAll c r s) →
  x ∈ String.list_ascii_of_string r ∨
  (x ≠ c ∧ x ∈ String.list_ascii_of_string s).
Proof.
  induction s as [|b s IH]; cbn [replaceAll].
  - intros H. by apply elem_of_nil in H.
  - destruct (decide (b = c)) as [->|Hne].
    + intros H.
      assert (x ∈ String.list_ascii_of_string r ∨
              x ∈ String.list_ascii_of_string (replaceAll c r s)) as [?|Hrest].
      { clear IH. revert H. generalize (replaceAll c r s). intros rest.
        induction r as [|a r IHr]; [by right|].
        change (String a r +:+ rest) with (String a (r +:+ rest)).
        cbn [String.list_ascii_of_string]. rewrite !elem_of_cons.
        intros [->|H]; [by left; left|].
        destruct (IHr H) as [?|?]; [by left; right|by right]. }
      * by left.
      * destruct (IH Hrest) as [?|[? ?]]; [by left|right].
        split; [done|]. cbn [String.list_ascii_of_string]. by apply elem_of_cons; right.
    + cbn [String.list_ascii_of_string]. rewrite !elem_of_cons.
      intros [->|H]; [right; split; [done|by left]|].
      destruct (IH H) as [?|[? ?]]; [by left|right]. split; [done|by right].
Qed.

Lemma replaceAll_absent c r s :
  c ∉ String.list_ascii_of_string s → replaceAll c r s = s.
Proof.
  induction s as [|b s IH]; [done|]. cbn [replaceAll String.list_ascii_of_string].
  rewrite not_elem_of_cons. intros [Hne Hs].
  destruct (decide (b = c)) as [->|_]; [done|]. by rewrite IH.
Qed.

Lemma map_result_bind {A B C} (f : B → C) (m : M A) (k : A → M B) :
  map_result f (bind m k) = bind m (λ a, map_result f (k a)).
Proof.
  destruct m as [[a|e] t]; [|done]. simpl. by destruct (k a) as [[b|e] t'].
Qed.

Lemma map_result_try_catch {A B} (f : A → B) (m : M A) (handler : Exn → M A) :
  map_result f (try_catch m handler)
  = try_catch (map_result f m) (λ e, map_result f (handler e)).
Proof.
  destruct m as [[a|e] t]; [done|]. simpl. by destruct (handler e) as [[b|e'] t'].
Qed.

Lemma reduce_map_result {A A' B} (g : A → A') (f : A → B → M A)
    (f' : A' → B → M A') (l : list B) (init : A) :
  (∀ acc x, f' (g acc) x = map_result g (f acc x)) →
  reduce f' l (g init) = map_result g (reduce f l init).
Proof.
  intros Hstep. revert init. induction l as [|x l IH]; intros init; [done|].
  cbn [reduce]. rewrite Hstep, map_result_bind.
  destruct (f init x) as [[acc|e] t]; [|done]. cbn [map_result bind]. by rewrite IH.
Qed.

(** A [reduce] whose callback throws on one of the elements throws. *)
Lemma reduce_throws {A B} (bad : B → Prop) (f : A → B → M A) (l : list B) :
  (∀ acc x, bad x → ∃ e, result (f acc x) = Throw e) →
  Exists bad l → ∀ init, ∃ e, result (reduce f l init) = Throw e.
Proof.
  intros Hbad. induction l as [|x l IH]; intros Hex init.
  - by apply Exists_nil in Hex.
  - cbn [reduce]. rewrite result_bind.
    destruct (result (f init x)) as [acc|e] eqn:Hfx; [|eauto].
    apply Exists_cons in Hex as [Hx|Hl]; [|by apply IH].
    destruct (Hbad init x Hx) as [e He]. rewrite He in Hfx. discriminate Hfx.
Qed.

Lemma env_key_prefixed p name : env_key (Some p) name = p +:+ env_key None name.
Proof. reflexivity. Qed.

Lemma prefixed_insert p k v (r : JSRecord) :
  prefixed p (<[k := v]> r) = <[p +:+ k := v]> (prefixed p r).
Proof. unfold prefixed. rewrite kmap_insert; [done|apply _]. Qed.

Lemma prefixed_empty p : prefixed p ∅ = ∅.
Proof. unfold prefixed. by rewrite kmap_empty. Qed.

Lemma lookup_prefixed p (r : JSRecord) k : prefixed p r !! (p +:+ k) = r !! k.
Proof. unfold prefixed. apply (lookup_kmap (String.append p)). Qed.

Lemma lookup_prefixed_Some p (r : JSRecord) k v :
  prefixed p r !! k = Some v → ∃ k', k = p +:+ k' ∧ r !! k' = Some v.
Proof. unfold prefixed. intros H. by apply (lookup_kmap_Some (String.append p)) in H. Qed.

Lemma prefixed_spread p (a b : JSRecord) :
  prefixed p (spread a b) = spread (prefixed p a) (prefixed p b).
Proof. unfold prefixed, spread. apply (kmap_union (String.append p)). Qed.

Lemma canister_id_keys_prefixed p (r : JSRecord) :
  canister_id_keys r → canister_id_keys (prefixed p r).
Proof.
  intros Hr k [v Hk]. apply lookup_prefixed_Some in Hk as (k' & -> & Hk').
  destruct (Hr k') as [s ->]; [by eexists|].
  exists (p +:+ s). by rewrite append_assoc.
Qed.

Lemma canister_id_keys_lookup (r : JSRecord) k :
  canister_id_keys r → ¬ canister_id_key k → r !! k = None.
Proof.
  intros Hr Hk. destruct (r !! k) as [v|] eqn:Hlookup; [|done].
  destruct Hk. apply Hr. by rewrite Hlookup.
Qed.

(** Overlaying the same records a second time changes nothing. *)
Lemma spread_twice (env loaded ids remotes : JSRecord) :
  spread (spread (spread (spread (spread (spread env loaded) ids) remotes) loaded)
                 ids) remotes
  = spread (spread (spread env loaded) ids) remotes.
Proof.
  apply map_eq. intros k. rewrite !lookup_spread.
  destruct (remotes !! k); [done|]. destruct (ids !! k); [done|].
  by destruct (loaded !! k).
Qed.

Section Facts.
Variable h : Host.

Lemma readCanisterIds_step_prefixed p acc x :
  readCanisterIds_step h (Some p) (prefixed p acc) x
  = map_result (prefixed p) (readCanisterIds_step h None acc x).
Proof.
  destruct x as [n d]. unfold readCanisterIds_step. rewrite !mbind_bind.
  destruct (get (members h) d (network h)) as [v|e]; [|done].
  rewrite !bind_lift_ok. unfold mret, M_ret, ret. cbn [map_result].
  by rewrite prefixed_insert, env_key_prefixed.
Qed.

Lemma dfxCanisterIds_step_prefixed p acc x :
  dfxCanisterIds_step h (Some p) (prefixed p acc) x
  = map_result (prefixed p) (dfxCanisterIds_step h None acc x).
Proof.
  destruct x as [n d]. unfold dfxCanisterIds_step. rewrite !mbind_bind.
  destruct (get (members h) d "remote") as [remote|e]; [|done].
  rewrite !bind_lift_ok.
  assert ((id ← lift (get (members h) remote "id");
           value ← lift (get (members h) id "local");
           mret (<[env_key (Some p) (dfx_name h n) := value]> (prefixed p acc)))
          = map_result (prefixed p)
              (id ← lift (get (members h) remote "id");
               value ← lift (get (members h) id "local");
               mret (<[env_key None (dfx_name h n) := value]> acc))) as Hrest.
  { rewrite !mbind_bind. destruct (get (members h) remote "id") as [id|e]; [|done].
    rewrite !bind_lift_ok, !mbind_bind.
    destruct (get (members h) id "local") as [v|e]; [|done].
    rewrite !bind_lift_ok. unfold mret, M_ret, ret. cbn [map_result].
    by rewrite prefixed_insert, env_key_prefixed. }
  destruct remote; try exact Hrest. done.
Qed.

Lemma readCanisterIds_try_prefixed p :
  readCanisterIds_try h (Some p)
  = map_result (prefixed p) (readCanisterIds_try h None).
Proof.
  unfold readCanisterIds_try. rewrite !mbind_bind, map_result_bind.
  destruct (read_json h (canisterIdsJsonFile h)) as [[config|e] t]; [|done].
  cbn [bind]. rewrite !mbind_bind.
  destruct (Object_entries config) as [entries|e]; [|done].
  rewrite !bind_lift_ok, <- (prefixed_empty p).
  by rewrite (reduce_map_result (prefixed p) (readCanisterIds_step h None)
                (readCanisterIds_step h (Some p)))
    by apply readCanisterIds_step_prefixed.
Qed.

Lemma dfxCanisterIds_try_prefixed p :
  dfxCanisterIds_try h (Some p)
  = map_result (prefixed p) (dfxCanisterIds_try h None).
Proof.
  unfold dfxCanisterIds_try. rewrite !mbind_bind, map_result_bind.
  destruct (read_json h (dfxJsonFile h)) as [[parsed|e] t]; [|done].
  cbn [bind]. rewrite !mbind_bind.
  destruct (destructure (members h) "JSON.parse(...)" parsed "canisters")
    as [canisters|e]; [|done].
  rewrite !bind_lift_ok, !mbind_bind.
  destruct (Object_entries canisters) as [entries|e]; [|done].
  rewrite !bind_lift_ok, <- (prefixed_empty p).
  by rewrite (reduce_map_result (prefixed p) (dfxCanisterIds_step h None)
                (dfxCanisterIds_step h (Some p)))
    by apply dfxCanisterIds_step_prefixed.
Qed.

Lemma readCanisterIds_prefixed p :
  readCanisterIds h (Some p) = map_result (prefixed p) (readCanisterIds h None).
Proof.
  unfold readCanisterIds. rewrite map_result_try_catch, readCanisterIds_try_prefixed.
  f_equal.
Qed.

Lemma dfxCanisterIds_prefixed p :
  dfxCanisterIds h (Some p) = map_result (prefixed p) (dfxCanisterIds h None).
Proof.
  unfold dfxCanisterIds. destruct (remote_network h).
  - unfold mret, M_ret, ret. cbn [map_result]. by rewrite prefixed_empty.
  - by rewrite map_result_try_catch, dfxCanisterIds_try_prefixed.
Qed.

(** The whole run of the callback, from one run of each of the two functions
    without prefix. *)
Lemma defineConfig_run {Static : Type} (version : JSValue) (config : Static)
    (process_env ids remotes : JSRecord) (t_ids t_remotes : list Event) :
  readCanisterIds h None = (Ok ids, t_ids) →
  dfxCanisterIds h None = (Ok remotes, t_remotes) →
  defineConfig h version config process_env
  = (Ok (overlay h process_env (prefixed "VITE_" ids) (prefixed "VITE_" remotes),
         {| static := config;
            define :=
              {| define_process_env :=
                   <["DFX_NETWORK" := JStr (network h)]> (spread ids remotes);
                 define_VITE_APP_VERSION := JSON_stringify h version;
                 define_VITE_DFX_NETWORK := JSON_stringify h (JStr (network h)) |} |}),
     (t_ids ++ t_remotes) ++ (t_ids ++ t_remotes)
     ++ [EvLog (overlay h process_env (prefixed "VITE_" ids)
                  (prefixed "VITE_" remotes))]
     ++ t_ids ++ t_remotes).
Proof.
  intros Hids Hremotes.
  assert (readCanisterIds h (Some "VITE_") = (Ok (prefixed "VITE_" ids), t_ids))
    as Hids_V by (by rewrite readCanisterIds_prefixed, Hids).
  assert (dfxCanisterIds h (Some "VITE_") = (Ok (prefixed "VITE_" remotes), t_remotes))
    as Hremotes_V by (by rewrite dfxCanisterIds_prefixed, Hremotes).
  unfold defineConfig.
  rewrite mbind_bind, (expanded_env_run h _ _ _ _ _ Hids_V Hremotes_V). cbn [bind].
  rewrite mbind_bind, (expanded_env_run h _ _ _ _ _ Hids_V Hremotes_V). cbn [bind].
  rewrite mbind_bind. cbn [emit bind].
  rewrite mbind_bind, Hids. cbn [bind]. rewrite mbind_bind, Hremotes. cbn [bind].
  unfold mret, M_ret, ret, overlay. rewrite spread_twice, app_nil_r.
  by rewrite <- !app_assoc.
Qed.

(** The first statements of the module read one file and hand on what fails
    in them. *)
Lemma load_version_run file :
  load_version h file
  = (match result (read_json h file) with
     | Ok parsed => destructure (members h) "JSON.parse(...)" parsed "version"
     | Throw e => Throw e
     end, [EvRead file]).
Proof.
  rewrite read_json_result. unfold load_version, read_file.
  rewrite !mbind_bind.
  destruct (readFileSync h file) as [json|e]; simpl; [|done].
  destruct (JSON_parse h json) as [parsed|e]; simpl; [|done].
  by destruct (destructure (members h) "JSON.parse(...)" parsed "version").
Qed.

Lemma dfxCanisterIds_step_malformed prefix acc n d :
  declared_shape h d = false →
  ∃ e, result (dfxCanisterIds_step h prefix acc (n, d)) = Throw e.
Proof.
  unfold declared_shape, has_remote, remote_id_of, remote_of.
  intros Hshape. cbn [dfxCanisterIds_step]. rewrite mbind_bind.
  destruct d as [| |b|r|s|l|kvs|p]; try (eexists; reflexivity);
    cbn [get nullish negb andb] in *;
    rewrite bind_lift_ok;
    (destruct (lookup_property (members h) _ "remote") as [| |b'|r'|s'|l'|kvs'|p']
       eqn:Hremote;
     cbn [nullish negb andb orb] in Hshape; try discriminate Hshape;
     try (eexists; reflexivity);
     rewrite mbind_bind; cbn [get]; rewrite bind_lift_ok, mbind_bind;
     destruct (lookup_property (members h) _ "id"); try discriminate Hshape;
     eexists; reflexivity).
Qed.

Lemma readCanisterIds_step_null prefix acc n d :
  nullish d = true →
  ∃ e, result (readCanisterIds_step h prefix acc (n, d)) = Throw e.
Proof. destruct d; try done; intros _; eexists; reflexivity. Qed.
End Facts.

End ViteConfigRestFacts.

(** ** More properties of the script *)

Module ViteConfigExtras.
Import JS Eff ViteConfig ViteConfigSpec ViteConfigExamples ViteConfigRest.
Import EffFacts ViteConfigFacts ViteConfigRestFacts.

(** X1. [manualChunks] looks at the folder of the module only.  Outside
    [node_modules] the chunk is [index].  Inside, it is [lazy] when the folder
    includes [@dfinity/nns], otherwise [index] when the folder includes
    [svelte], otherwise [vendor]: the entries [@sveltejs] and
    [@dfinity/nns-proto] of the lists change nothing. *)
Theorem manualChunks_cases (dirname : string → string) (id : string) :
  manualChunks dirname id =
  if includes (dirname id) "node_modules"
  then if includes (dirname id) "@dfinity/nns" then "lazy"
       else if includes (dirname id) "svelte" then "index"
       else "vendor"
  else "index".
Proof.
  unfold manualChunks. rewrite !find_none_includes. unfold lazy. cbn [app forallb].
  destruct (includes (dirname id) "node_modules");
    [|by rewrite !andb_false_r].
  rewrite !andb_true_r.
  destruct (includes (dirname id) "@dfinity/nns") eqn:Hnns.
  { cbn. by rewrite !andb_false_r. }
  assert (includes (dirname id) "@dfinity/nns-proto" = false) as ->.
  { destruct (includes (dirname id) "@dfinity/nns-proto") eqn:Hproto; [|done].
    rewrite <- Hnns. symmetry. by eapply includes_trans. }
  destruct (includes (dirname id) "svelte") eqn:Hsvelte.
  { cbn. by rewrite !andb_false_r. }
  assert (includes (dirname id) "@sveltejs" = false) as ->.
  { destruct (includes (dirname id) "@sveltejs") eqn:Hkit; [|done].
    rewrite <- Hsvelte. symmetry. by eapply includes_trans. }
  done.
Qed.

(** X2. The read of [package.json] is not guarded: when reading or parsing it
    fails, loading the configuration throws that exception, after the one read
    and without any warning, and neither deployment file is read. *)
Theorem load_config_needs_package_json (h : Host) {Static : Type} (file : string)
    (config : Static) (process_env : JSRecord) (e : Exn) :
  result (read_json h file) = Throw e →
  load_config h file config process_env = (Throw e, [EvRead file]).
Proof.
  intros Hfail. unfold load_config.
  by rewrite mbind_bind, load_version_run, Hfail.
Qed.

Lemma load_config_needs_package_json_witness :
  load_config (sample_host None) package_json_file tt ∅
  = (Throw (HostError ("Error: ENOENT: no such file or directory, "
                       +:+ "open '/app/package.json'")),
     [EvRead package_json_file]).
Proof.
  apply (load_config_needs_package_json (sample_host None) package_json_file tt ∅).
  reflexivity.
Defined.

(** X3. When [package.json] parses to an object, the configuration is
    produced and [import.meta.env.VITE_APP_VERSION] is [JSON.stringify] of the
    [version] property of that object ([undefined] when it has none). *)
Theorem load_config_version (h : Host) {Static : Type} (file : string)
    (config : Static) (process_env : JSRecord) (props : list (string * JSValue)) :
  result (read_json h file) = Ok (JObj props) →
  ∃ process_env' cfg,
    result (load_config h file config process_env) = Ok (process_env', cfg) ∧
    define_VITE_APP_VERSION (define cfg)
    = JSON_stringify h (lookup_property (members h) (JObj props) "version").
Proof.
  intros Hread.
  destruct (readCanisterIds_returns h None) as (ids & t1 & Hids).
  destruct (dfxCanisterIds_returns h None) as (remotes & t2 & Hremotes).
  unfold load_config. rewrite mbind_bind, load_version_run, Hread.
  cbn [destructure bind].
  rewrite (defineConfig_run h _ _ _ _ _ _ _ Hids Hremotes).
  eexists _, _. split; reflexivity.
Qed.

Lemma load_config_version_witness :
  ∃ process_env' cfg,
    result (load_config packaged_host package_json_file tt ∅)
    = Ok (process_env', cfg) ∧
    define_VITE_APP_VERSION (define cfg)
    = JSON_stringify packaged_host (JStr "0.0.1").
Proof.
  apply (load_config_version packaged_host package_json_file tt ∅
           [("name", JStr "app"); ("version", JStr "0.0.1")]).
  reflexivity.
Defined.

(** X4. What the callback prints with [console.log] is the new [process.env]:
    overlaying [loadEnv] and the two records a second time changes nothing.
    It prints once. *)
Theorem defineConfig_logs_new_process_env (h : Host) {Static : Type}
    (version : JSValue) (config : Static) (process_env : JSRecord) :
  ∃ process_env' cfg,
    result (defineConfig h version config process_env) = Ok (process_env', cfg) ∧
    filter is_log (events (defineConfig h version config process_env))
    = [EvLog process_env'].
Proof.
  destruct (readCanisterIds_cases h None) as [(ids & _ & Hids)|(e & _ & Hids)];
    destruct (dfxCanisterIds_cases h None)
      as [[_ Hrem]|[(_ & r & _ & Hrem)|(_ & e' & _ & Hrem)]];
    rewrite (defineConfig_run h _ _ _ _ _ _ _ Hids Hrem);
    eexists _, _; (split; [reflexivity|]); reflexivity.
Qed.

(** X5. One run of the callback runs [readCanisterIds] and [dfxCanisterIds]
    three times each: it reads and warns three times as much as one run of the
    two functions, which reads one file on [ic] and [staging] and two files on
    the other networks. *)
Theorem defineConfig_reads_and_warns_three_times (h : Host) {Static : Type}
    (version : JSValue) (config : Static) (process_env : JSRecord) :
  let once := events (readCanisterIds h None) ++ events (dfxCanisterIds h None) in
  let run := events (defineConfig h version config process_env) in
  reads run = 3 * reads once ∧
  warnings run = 3 * warnings once ∧
  reads once = (if remote_network h then 1 else 2).
Proof.
  destruct (readCanisterIds_cases h None) as [(ids & _ & Hids)|(e & _ & Hids)];
    destruct (dfxCanisterIds_cases h None)
      as [[Hnet Hrem]|[(Hnet & r & _ & Hrem)|(Hnet & e' & _ & Hrem)]];
    rewrite (defineConfig_run h _ _ _ _ _ _ _ Hids Hrem), Hids, Hrem, Hnet;
    cbn [events snd]; rewrite !reads_app, !warnings_app;
    unfold reads, warnings; simpl; lia.
Qed.

(** X6. The callback takes no variable away from [process.env], and a
    variable whose name does not end in [_CANISTER_ID] has the value that
    [loadEnv] gives it, or else the value it had. *)
Theorem defineConfig_keeps_other_variables (h : Host) {Static : Type}
    (version : JSValue) (config : Static) (process_env : JSRecord) :
  ∃ process_env' cfg,
    result (defineConfig h version config process_env) = Ok (process_env', cfg) ∧
    (∀ k, is_Some (process_env !! k) → is_Some (process_env' !! k)) ∧
    (∀ k, ¬ canister_id_key k →
          process_env' !! k
          = match loadEnv h (mode h) (cwd h) !! k with
            | Some v => Some v
            | None => process_env !! k
            end).
Proof.
  destruct (readCanisterIds_returns h None) as (ids & t1 & Hids).
  destruct (dfxCanisterIds_returns h None) as (remotes & t2 & Hremotes).
  rewrite (defineConfig_run h _ _ _ _ _ _ _ Hids Hremotes).
  eexists _, _. split; [reflexivity|]. unfold overlay. split.
  - intros k Hk. rewrite !lookup_spread.
    destruct (prefixed "VITE_" remotes !! k); [by eexists|].
    destruct (prefixed "VITE_" ids !! k); [by eexists|].
    by destruct (loadEnv h (mode h) (cwd h) !! k); [eexists|].
  - intros k Hk. rewrite !lookup_spread.
    rewrite (canister_id_keys_lookup (prefixed "VITE_" remotes) k); [|
      apply canister_id_keys_prefixed, (dfxCanisterIds_keys h None);
      by rewrite Hremotes|done].
    rewrite (canister_id_keys_lookup (prefixed "VITE_" ids) k); [done|
      apply canister_id_keys_prefixed, (readCanisterIds_keys h None);
      by rewrite Hids|done].
Qed.

(** X7. Beside [DFX_NETWORK], [define['process.env']] has no key but keys in
    [_CANISTER_ID], and [import.meta.env.VITE_DFX_NETWORK] is [JSON.stringify]
    of the network. *)
Theorem define_keys (h : Host) {Static : Type}
    (version : JSValue) (config : Static) (process_env : JSRecord) :
  ∃ process_env' cfg,
    result (defineConfig h version config process_env) = Ok (process_env', cfg) ∧
    define_VITE_DFX_NETWORK (define cfg) = JSON_stringify h (JStr (network h)) ∧
    (∀ k, is_Some (define_process_env (define cfg) !! k) →
          k = "DFX_NETWORK" ∨ canister_id_key k).
Proof.
  destruct (readCanisterIds_returns h None) as (ids & t1 & Hids).
  destruct (dfxCanisterIds_returns h None) as (remotes & t2 & Hremotes).
  rewrite (defineConfig_run h _ _ _ _ _ _ _ Hids Hremotes).
  eexists _, _. split; [reflexivity|]. split; [reflexivity|].
  cbn [define define_process_env]. intros k Hk.
  destruct (decide ("DFX_NETWORK" = k)) as [<-|Hne]; [by left|right].
  rewrite lookup_insert_ne, lookup_spread in Hk by done.
  destruct (remotes !! k) as [v|] eqn:Hr.
  - apply (dfxCanisterIds_keys h None remotes); [by rewrite Hremotes|].
    by rewrite Hr.
  - by apply (readCanisterIds_keys h None ids); [rewrite Hids|].
Qed.

(** X8. Whatever the files hold, every key of the record returned by
    [readCanisterIds] and by [dfxCanisterIds] is the prefix (empty when
    absent), then some name, then [_CANISTER_ID]. *)
Theorem record_keys_shape (h : Host) (prefix : option string) :
  (∃ r, result (readCanisterIds h prefix) = Ok r ∧
        ∀ k, is_Some (r !! k) →
             ∃ name, k = default "" prefix +:+ name +:+ "_CANISTER_ID") ∧
  (∃ r, result (dfxCanisterIds h prefix) = Ok r ∧
        ∀ k, is_Some (r !! k) →
             ∃ name, k = default "" prefix +:+ name +:+ "_CANISTER_ID").
Proof.
  destruct (readCanisterIds_returns h None) as (ids & t1 & Hids).
  destruct (dfxCanisterIds_returns h None) as (remotes & t2 & Hremotes).
  assert (canister_id_keys ids) as Hkeys_ids
    by (apply (readCanisterIds_keys h None); by rewrite Hids).
  assert (canister_id_keys remotes) as Hkeys_remotes
    by (apply (dfxCanisterIds_keys h None); by rewrite Hremotes).
  destruct prefix as [p|].
  - rewrite readCanisterIds_prefixed, dfxCanisterIds_prefixed, Hids, Hremotes.
    cbn [map_result result fst default].
    split; eexists; (split; [reflexivity|]); intros k [v Hk];
      apply lookup_prefixed_Some in Hk as (k' & -> & Hk').
    + destruct (Hkeys_ids k') as [s ->]; [by eexists|]. by exists s.
    + destruct (Hkeys_remotes k') as [s ->]; [by eexists|]. by exists s.
  - rewrite Hids, Hremotes. cbn [result fst default].
    split; eexists; (split; [reflexivity|]); intros k Hk.
    + destruct (Hkeys_ids k Hk) as [s ->]. by exists s.
    + destruct (Hkeys_remotes k Hk) as [s ->]. by exists s.
Qed.

(** X9. The prefix only renames the keys: with the prefix [p], each function
    does what it does without prefix (the same reads and warnings) and returns
    the same record with [p] put in front of each key. *)
Theorem prefix_only_renames_keys (h : Host) (p : string) :
  (∃ r t, readCanisterIds h None = (Ok r, t) ∧
          readCanisterIds h (Some p) = (Ok (prefixed p r), t) ∧
          ∀ k, prefixed p r !! (p +:+ k) = r !! k) ∧
  (∃ r t, dfxCanisterIds h None = (Ok r, t) ∧
          dfxCanisterIds h (Some p) = (Ok (prefixed p r), t) ∧
          ∀ k, prefixed p r !! (p +:+ k) = r !! k).
Proof.
  destruct (readCanisterIds_returns h None) as (ids & t1 & Hids).
  destruct (dfxCanisterIds_returns h None) as (remotes & t2 & Hremotes).
  split.
  - exists ids, t1. rewrite readCanisterIds_prefixed, Hids.
    split; [done|]. split; [done|]. intros k. apply lookup_prefixed.
  - exists remotes, t2. rewrite dfxCanisterIds_prefixed, Hremotes.
    split; [done|]. split; [done|]. intros k. apply lookup_prefixed.
Qed.

(** X10. Every canister id that the configuration defines as
    [process.env.K] is in the new [process.env] as [VITE_K], with the same
    value. *)
Theorem defined_ids_are_in_process_env (h : Host) {Static : Type}
    (version : JSValue) (config : Static) (process_env : JSRecord) :
  ∃ process_env' cfg,
    result (defineConfig h version config process_env) = Ok (process_env', cfg) ∧
    ∀ k v, k ≠ "DFX_NETWORK" →
           define_process_env (define cfg) !! k = Some v →
           process_env' !! ("VITE_" +:+ k) = Some v.
Proof.
  destruct (readCanisterIds_returns h None) as (ids & t1 & Hids).
  destruct (dfxCanisterIds_returns h None) as (remotes & t2 & Hremotes).
  rewrite (defineConfig_run h _ _ _ _ _ _ _ Hids Hremotes).
  eexists _, _. split; [reflexivity|]. cbn [define define_process_env].
  intros k v Hne Hk. rewrite lookup_insert_ne, lookup_spread in Hk by done.
  unfold overlay. rewrite !lookup_spread, !lookup_prefixed.
  destruct (remotes !! k); [done|]. by rewrite Hk.
Qed.

(** X11. A [canister_ids.json] that parses to a value without properties of
    its own (a number, a boolean, [{}], [[]], the empty string) gives the
    empty record, and no warning. *)
Theorem readCanisterIds_no_properties (h : Host) (prefix : option string)
    (v : JSValue) :
  result (read_json h (canisterIdsJsonFile h)) = Ok v →
  nullish v = false →
  own_properties v = [] →
  readCanisterIds h prefix = (Ok ∅, [EvRead (canisterIdsJsonFile h)]).
Proof.
  intros Hread Hv Hown.
  assert (result (readCanisterIds_try h prefix) = Ok ∅) as Htry.
  { unfold readCanisterIds_try. rewrite mbind_bind, result_bind, Hread.
    unfold Object_entries. by rewrite Hv, Hown. }
  destruct (readCanisterIds_cases h prefix) as [(r & Hr & ->)|(e & He & _)].
  - rewrite Hr in Htry. by injection Htry as ->.
  - rewrite Htry in He. discriminate He.
Qed.

Lemma readCanisterIds_no_properties_witness :
  readCanisterIds hollow_host (Some "VITE_")
  = (Ok ∅, [EvRead (canisterIdsJsonFile hollow_host)]).
Proof.
  apply (readCanisterIds_no_properties hollow_host (Some "VITE_") (JNum "42"));
    reflexivity.
Defined.

(** X12. A [dfx.json] that parses to an object without [canisters] gives the
    empty record after one warning: [Object.entries(undefined)] throws. *)
Theorem dfxCanisterIds_without_canisters (h : Host) (prefix : option string)
    (top : list (string * JSValue)) :
  remote_network h = false →
  result (read_json h (dfxJsonFile h)) = Ok (JObj top) →
  assoc "canisters" top = None →
  dfxCanisterIds h prefix
  = (Ok ∅,
     [EvRead (dfxJsonFile h);
      EvWarn (dfxCanisterIds_warning h
                (TypeError "Cannot convert undefined or null to object"))]).
Proof.
  intros Hnet Hread Habsent.
  assert (result (dfxCanisterIds_try h prefix)
          = Throw (TypeError "Cannot convert undefined or null to object")) as Htry.
  { unfold dfxCanisterIds_try. rewrite mbind_bind, result_bind, Hread.
    cbn [destructure]. rewrite lookup_property_absent; [done|done|].
    apply (bool_decide_unpack _). by vm_compute. }
  destruct (dfxCanisterIds_cases h prefix)
    as [[Hnet' _]|[(_ & r & Hr & _)|(_ & e & He & ->)]].
  - congruence.
  - rewrite Hr in Htry. discriminate Htry.
  - rewrite Htry in He. by injection He as <-.
Qed.

Lemma dfxCanisterIds_without_canisters_witness :
  dfxCanisterIds hollow_host None
  = (Ok ∅,
     [EvRead (dfxJsonFile hollow_host);
      EvWarn (dfxCanisterIds_warning hollow_host
                (TypeError "Cannot convert undefined or null to object"))]).
Proof.
  apply (dfxCanisterIds_without_canisters hollow_host None []); reflexivity.
Defined.

(** X13. One [null] canister in [canister_ids.json] empties the record: the
    result is the empty record after one warning, whatever the other
    canisters are. *)
Theorem readCanisterIds_null_member (h : Host) (prefix : option string)
    (entries : list (string * JSValue)) :
  result (read_json h (canisterIdsJsonFile h)) = Ok (JObj entries) →
  Exists (λ e, nullish e.2 = true) entries →
  result (readCanisterIds h prefix) = Ok ∅ ∧
  warnings (events (readCanisterIds h prefix)) = 1.
Proof.
  intros Hread Hnull.
  assert (∃ e, result (readCanisterIds_try h prefix) = Throw e) as [e Htry].
  { unfold readCanisterIds_try. rewrite mbind_bind, result_bind, Hread.
    cbn [Object_entries nullish own_properties]. rewrite mbind_bind, bind_lift_ok.
    apply (reduce_throws (λ e, nullish e.2 = true)); [|done].
    intros acc [n d] Hd. by apply readCanisterIds_step_null. }
  destruct (readCanisterIds_cases h prefix) as [(r & Hr & _)|(e' & _ & ->)].
  - rewrite Hr in Htry. discriminate Htry.
  - done.
Qed.

Lemma readCanisterIds_null_member_witness :
  result (readCanisterIds null_details_host None) = Ok ∅ ∧
  warnings (events (readCanisterIds null_details_host None)) = 1.
Proof.
  apply (readCanisterIds_null_member null_details_host None
           [("backend", JObj [("local", JStr "abc")]); ("frontend", JNull)]).
  - reflexivity.
  - apply Exists_cons_tl, Exists_cons_hd. reflexivity.
Defined.

(** X14. One canister of [dfx.json] that is not of the declared shape ([null],
    or with a [remote] that is [null] or whose [id] is missing or [null])
    empties the record: the result is the empty record after one warning,
    whatever the other canisters are. *)
Theorem dfxCanisterIds_malformed_canister (h : Host) (prefix : option string)
    (top entries : list (string * JSValue)) :
  remote_network h = false →
  result (read_json h (dfxJsonFile h)) = Ok (JObj top) →
  assoc "canisters" top = Some (JObj entries) →
  Exists (λ e, declared_shape h e.2 = false) entries →
  result (dfxCanisterIds h prefix) = Ok ∅ ∧
  warnings (events (dfxCanisterIds h prefix)) = 1.
Proof.
  intros Hnet Hread Hcanisters Hbad.
  assert (∃ e, result (dfxCanisterIds_try h prefix) = Throw e) as [e Htry].
  { unfold dfxCanisterIds_try. rewrite mbind_bind, result_bind, Hread.
    cbn [destructure]. unfold lookup_property. cbn [own_properties].
    rewrite Hcanisters, mbind_bind, bind_lift_ok.
    cbn [Object_entries nullish own_properties]. rewrite mbind_bind, bind_lift_ok.
    apply (reduce_throws (λ e, declared_shape h e.2 = false)); [|done].
    intros acc [n d] Hd. by apply dfxCanisterIds_step_malformed. }
  destruct (dfxCanisterIds_cases h prefix)
    as [[Hnet' _]|[(_ & r & Hr & _)|(_ & e' & _ & ->)]].
  - congruence.
  - rewrite Hr in Htry. discriminate Htry.
  - done.
Qed.

Lemma dfxCanisterIds_malformed_canister_witness :
  result (dfxCanisterIds broken_remote_host None) = Ok ∅ ∧
  warnings (events (dfxCanisterIds broken_remote_host None)) = 1.
Proof.
  apply (dfxCanisterIds_malformed_canister broken_remote_host None
           [("canisters", JObj broken_remote_canisters)] broken_remote_canisters).
  - reflexivity.
  - reflexivity.
  - reflexivity.
  - apply Exists_cons_tl, Exists_cons_hd. reflexivity.
Defined.

(** X15. Beyond the test for [ic] and [staging], [dfxCanisterIds] does not
    look at the network: on two networks that are neither, it does the same
    and returns the same record (the [local] ids). *)
Theorem dfxCanisterIds_ignores_network_name (h : Host) (net : option string)
    (prefix : option string) :
  remote_network h = false →
  remote_network (with_network h net) = false →
  dfxCanisterIds (with_network h net) prefix = dfxCanisterIds h prefix.
Proof.
  intros Hnet Hnet'. unfold dfxCanisterIds. rewrite Hnet, Hnet'. reflexivity.
Qed.

Lemma dfxCanisterIds_ignores_network_name_witness :
  dfxCanisterIds (with_network (sample_host None) (Some "testnet")) None
  = dfxCanisterIds (sample_host None) None.
Proof.
  apply (dfxCanisterIds_ignores_network_name (sample_host None) (Some "testnet") None);
    reflexivity.
Defined.

(** X16. The name that [dfxCanisterIds] puts in uppercase has no [-] and no
    apostrophe left, and a name that has neither is put in uppercase as it
    is. *)
Theorem dfx_name_sanitized (h : Host) (name : string) :
  dfx_name h name = toUpperCase h (sanitized name) ∧
  includes (sanitized name) "-" = false ∧
  includes (sanitized name) "'" = false ∧
  (includes name "-" = false → includes name "'" = false → sanitized name = name).
Proof.
  split; [reflexivity|]. unfold sanitized. split; [|split].
  - apply not_true_is_false. rewrite includes_char. intros Hin.
    apply replaceAll_chars in Hin as [Hin|[_ Hin]]; [by apply elem_of_nil in Hin|].
    apply replaceAll_chars in Hin as [Hin|[Hne _]]; [|done].
    apply elem_of_cons in Hin as [Heq|Hin]; [discriminate Heq|].
    by apply elem_of_nil in Hin.
  - apply not_true_is_false. rewrite includes_char. intros Hin.
    apply replaceAll_chars in Hin as [Hin|[Hne _]]; [|done].
    by apply elem_of_nil in Hin.
  - intros Hdash Hquote.
    apply not_true_iff_false in Hdash, Hquote. rewrite includes_char in Hdash, Hquote.
    by rewrite (replaceAll_absent "-"), (replaceAll_absent "'").
Qed.

End ViteConfigExtras.
